(** * UniVerse API: a shallow embedding of [main.py] and its properties

    The handlers of [main.py] are embedded as functions over an explicit
    model of the document store.  Python dictionaries are finite maps from
    strings to values, exceptions are the left summand of the handlers'
    results, and the readings of [datetime.utcnow()] and [uuid4()] are
    explicit arguments, named in the order in which the handler takes them. *)

From Stdlib Require Import ZArith NArith String Ascii List Bool Floats Lia.
From Stdlib Require Import Sorted Permutation.
From stdpp Require Import gmap strings list fin_maps.

Open Scope string_scope.

(** ** Values *)

(** A naive [datetime]: microseconds since 0001-01-01T00:00:00. *)
Definition datetime := Z.

(** A [bson.ObjectId] holds a byte string, each byte a number below 256.
    The ones the driver generates have twelve bytes; [ObjectId(str)] can
    build a shorter one (see [ObjectId_parse]). *)
Definition ObjectId := list N.

(** The values found in the documents of this program: [None], [str],
    [float], [List[str]] (the [tags] field), [datetime] and [ObjectId].
    A [datetime] is naive ([VDatetime]) or carries a UTC offset
    ([VDatetimeTz], the wall-clock reading and the offset, both in
    microseconds), as a timestamp parsed from a request body can. *)
Inductive value :=
| VNone
| VStr (s : string)
| VFloat (x : float)
| VList (l : list string)
| VDatetime (t : datetime)
| VDatetimeTz (t : datetime) (utcoffset : Z)
| VObjectId (o : ObjectId).

(** A document is a Python [dict] with string keys. *)
Abbreviation doc := (gmap string value).

(** ** What the runtime provides

    The regular-expression engine of the store, CPython's [repr] of floats
    and of lists, and [hashlib.sha256] are not reimplemented: the
    development is parametric in them. *)
Class Runtime := {
  (** [re_valid pattern options]: the store accepts the pattern as a
      regular expression. *)
  re_valid : string -> string -> bool;
  (** [re_search pattern options text]: the store's [$regex] operator, for
      a pattern it accepts. *)
  re_search : string -> string -> string -> bool;
  (** [repr] of a [float]. *)
  float_repr : float -> string;
  (** [repr] of a list of strings. *)
  list_repr : list string -> string;
  (** [hashlib.sha256(s.encode("utf-8")).hexdigest()]. *)
  sha256_hexdigest : string -> string
}.

(** ** Decimal and hexadecimal rendering *)

Definition digit_char (n : Z) : ascii := ascii_of_N (48 + Z.to_N n).

(** [zpad w n]: the [w] least significant decimal digits of [n] ("%0wd"). *)
Fixpoint zpad (w : nat) (n : Z) : string :=
  match w with
  | O => ""
  | S w' => zpad w' (n / 10) ++ String (digit_char (n mod 10)) ""
  end.

Definition hex_char (n : N) : ascii :=
  if (n <? 10)%N then ascii_of_N (48 + n) else ascii_of_N (87 + n).

(** [binascii.hexlify]: two lower-case hexadecimal digits per byte. *)
Fixpoint hexlify (bs : list N) : string :=
  match bs with
  | [] => ""
  | b :: bs' =>
      String (hex_char (b / 16)) (String (hex_char (b mod 16)) (hexlify bs'))
  end.

Definition hex_value (c : ascii) : option N :=
  let n := N_of_ascii c in
  if ((48 <=? n) && (n <=? 57))%N then Some (n - 48)%N
  else if ((97 <=? n) && (n <=? 102))%N then Some (n - 87)%N
  else if ((65 <=? n) && (n <=? 70))%N then Some (n - 55)%N
  else None.

(** ASCII whitespace: space, [\t], [\n], [\v], [\f], [\r]. *)
Definition is_space (c : ascii) : bool :=
  let n := N_of_ascii c in
  ((n =? 32) || ((9 <=? n) && (n <=? 13)))%N.

(** [bytes.fromhex]: two hexadecimal digits per byte; ASCII whitespace
    is skipped before a byte and at the end, not between the two digits
    of a byte.  [None] stands for [ValueError]. *)
Fixpoint fromhex (s : string) : option (list N) :=
  match s with
  | EmptyString => Some []
  | String c s' =>
      if is_space c then fromhex s'
      else
        match hex_value c, s' with
        | Some hi, String c' s'' =>
            match hex_value c' with
            | Some lo => cons (16 * hi + lo)%N <$> fromhex s''
            | None => None
            end
        | _, _ => None
        end
  end.

(** The [w] least significant bytes of [n], most significant first. *)
Fixpoint bytes_of_N (w : nat) (n : N) : list N :=
  match w with
  | O => []
  | S w' => (bytes_of_N w' (n / 256) ++ [n mod 256])%list
  end%N.

(** ** ObjectId *)

(** [str(ObjectId)]: [binascii.hexlify] of its bytes, 24 lower-case
    hexadecimal digits for a twelve-byte identifier. *)
Definition ObjectId_str (o : ObjectId) : string := hexlify o.

(** [ObjectId(id_str)] for a [str] argument, as [bson] validates it: the
    string has 24 characters and [bytes.fromhex] reads it.  Since
    [bytes.fromhex] skips whitespace, a string of 22 digits and two spaces
    is accepted and gives an identifier of eleven bytes.  [None] stands
    for [InvalidId]. *)
Definition ObjectId_parse (id_str : string) : option ObjectId :=
  if Nat.eqb (String.length id_str) 24 then fromhex id_str else None.

(** The twelve-byte identifier number [n] of the generator. *)
Definition ObjectId_of_N (n : N) : ObjectId := bytes_of_N 12 n.

(** ** datetime *)

Definition us_per_second : Z := 1000000.
Definition us_per_day : Z := 86400 * us_per_second.

(** [timedelta(days=n)]. *)
Definition timedelta_days (n : Z) : Z := n * us_per_day.

Definition days_before_month (m : Z) : Z :=
  match m with
  | 1 => 0 | 2 => 31 | 3 => 59 | 4 => 90 | 5 => 120 | 6 => 151
  | 7 => 181 | 8 => 212 | 9 => 243 | 10 => 273 | 11 => 304 | _ => 334
  end%Z.

Definition days_in_month (m : Z) : Z :=
  match m with
  | 2 => 28
  | 4 | 6 | 9 | 11 => 30
  | _ => 31
  end%Z.

(** [datetime._ord2ymd]: proleptic Gregorian ordinal (day 1 is 0001-01-01)
    to year, month, day. *)
Definition ord2ymd (ordinal : Z) : Z * Z * Z :=
  let n := (ordinal - 1)%Z in
  let n400 := (n / 146097)%Z in
  let n := (n mod 146097)%Z in
  let n100 := (n / 36524)%Z in
  let n := (n mod 36524)%Z in
  let n4 := (n / 1461)%Z in
  let n := (n mod 1461)%Z in
  let n1 := (n / 365)%Z in
  let n := (n mod 365)%Z in
  let year := (n400 * 400 + 1 + n100 * 100 + n4 * 4 + n1)%Z in
  if ((n1 =? 4) || (n100 =? 4))%Z then ((year - 1)%Z, 12%Z, 31%Z)
  else
    let leapyear := ((n1 =? 3) && (negb (n4 =? 24) || (n100 =? 3)))%Z in
    let month := Z.shiftr (n + 50) 5 in
    let preceding :=
      (days_before_month month
       + (if ((2 <? month) && leapyear)%Z then 1 else 0))%Z in
    if (n <? preceding)%Z then
      let month' := (month - 1)%Z in
      let preceding' :=
        (preceding - (days_in_month month'
                      + (if ((month' =? 2) && leapyear)%Z then 1 else 0)))%Z in
      (year, month', (n - preceding' + 1)%Z)
    else (year, month, (n - preceding + 1)%Z).

(** [datetime.isoformat()] of a naive datetime: the microseconds are
    printed only when they are not zero. *)
Definition isoformat (t : datetime) : string :=
  let days := (t / us_per_day)%Z in
  let rest := (t mod us_per_day)%Z in
  let '(y, m, d) := ord2ymd (days + 1) in
  let secs := (rest / us_per_second)%Z in
  let us := (rest mod us_per_second)%Z in
  let hh := (secs / 3600)%Z in
  let mm := ((secs mod 3600) / 60)%Z in
  let ss := (secs mod 60)%Z in
  zpad 4 y ++ "-" ++ zpad 2 m ++ "-" ++ zpad 2 d ++ "T"
  ++ zpad 2 hh ++ ":" ++ zpad 2 mm ++ ":" ++ zpad 2 ss
  ++ (if (us =? 0)%Z then "" else "." ++ zpad 6 us).

(** [datetime._format_offset]: the suffix of an offset-aware datetime,
    [+HH:MM], with seconds and microseconds only when they are not
    zero. *)
Definition format_offset (utcoffset : Z) : string :=
  let sign := if (utcoffset <? 0)%Z then "-" else "+" in
  let off := Z.abs utcoffset in
  let hh := (off / (3600 * us_per_second))%Z in
  let rest := (off mod (3600 * us_per_second))%Z in
  let mm := (rest / (60 * us_per_second))%Z in
  let ss := (rest mod (60 * us_per_second))%Z in
  sign ++ zpad 2 hh ++ ":" ++ zpad 2 mm
  ++ (if (ss =? 0)%Z then ""
      else ":" ++ zpad 2 (ss / us_per_second)
           ++ (if (ss mod us_per_second =? 0)%Z then ""
               else "." ++ zpad 6 (ss mod us_per_second))).

(** [datetime.isoformat()] of an offset-aware datetime: the wall-clock
    reading followed by the offset. *)
Definition isoformat_tz (t : datetime) (utcoffset : Z) : string :=
  isoformat t ++ format_offset utcoffset.

(** [isoformat(sep=" ")], from the [isoformat()] string. *)
Definition with_space (s : string) : string :=
  substring 0 10 s ++ " " ++ substring 11 (String.length s - 11) s.

(** [str(datetime)] is [isoformat(sep=" ")]. *)
Definition datetime_str (t : datetime) : string :=
  with_space (isoformat t).

(** A [datetime] as a request model holds it. *)
Inductive pydatetime :=
| Naive (t : datetime)
| Aware (t : datetime) (utcoffset : Z).

Definition datetime_value (t : pydatetime) : value :=
  match t with
  | Naive t => VDatetime t
  | Aware t utcoffset => VDatetimeTz t utcoffset
  end.

(** ** What the store keeps of a value

    BSON holds a date as milliseconds since the epoch, in UTC: the driver
    subtracts the offset of an offset-aware datetime and drops the
    microseconds below the millisecond; what is read back is naive.  The
    other values are kept as they are. *)
Definition trunc_ms (t : datetime) : datetime := (t - t mod 1000)%Z.

Definition bson_value (v : value) : value :=
  match v with
  | VDatetime t => VDatetime (trunc_ms t)
  | VDatetimeTz t utcoffset => VDatetime (trunc_ms (t - utcoffset)%Z)
  | _ => v
  end.

(** [datetime(y, m, d, hh, mm, ss)] for a date in the years 2001 to 2400,
    used to write down examples. *)
Definition ymd_ordinal (y m d : Z) : Z :=
  let y' := (y - 1)%Z in
  let leap := (((y mod 4 =? 0) && negb (y mod 100 =? 0)) || (y mod 400 =? 0))%Z in
  (y' * 365 + y' / 4 - y' / 100 + y' / 400
   + days_before_month m + (if ((2 <? m) && leap)%Z then 1 else 0) + d)%Z.

Definition mk_datetime (y m d hh mm ss : Z) : datetime :=
  ((ymd_ordinal y m d - 1) * us_per_day
   + (hh * 3600 + mm * 60 + ss) * us_per_second)%Z.

(** ** Exceptions and the handler monad *)

Inductive exn :=
| HTTPException (status_code : Z) (detail : string)
| TypeError (msg : string)
| OperationFailure.

(** ** The document store

    A collection is the list of its documents in insertion order.  The
    driver's ObjectId generator is a counter: the next identifier it hands
    out is number [next_oid]. *)
Record database := {
  collections : gmap string (list doc);
  next_oid : N
}.

(** The identifier the next [insert_one] generates. *)
Definition new_oid (d : database) : ObjectId := ObjectId_of_N (next_oid d).

(** [db[name]]: a collection that was never written to is empty. *)
Definition coll (d : database) (name : string) : list doc :=
  default [] (collections d !! name).

(** The module-level [db] is [None] when the database is not configured.
    A handler maps the store before the request to its result, a value or
    a raised exception, and the store after it. *)
Definition M (A : Type) : Type :=
  option database -> (exn + A) * option database.

Definition ret {A} (a : A) : M A := fun w => (inr a, w).

Definition raise {A} (e : exn) : M A := fun w => (inl e, w).

Definition bind {A B} (m : M A) (k : A -> M B) : M B :=
  fun w =>
    match m w with
    | (inr a, w') => k a w'
    | (inl e, w') => (inl e, w')
    end.

Notation "x <- c1 ;; c2" := (bind c1 (fun x => c2))
  (at level 100, c1 at next level, right associativity).

(** [db is None]. *)
Definition db_is_None : M bool :=
  fun w => (inr (match w with None => true | Some _ => false end), w).

(** An operation on [db[...]]: subscripting [None] raises [TypeError]. *)
Definition with_db {A} (f : database -> (exn + A) * database) : M A :=
  fun w =>
    match w with
    | None => (inl (TypeError "'NoneType' object is not subscriptable"), None)
    | Some d => let '(r, d') := f d in (r, Some d')
    end.

(** ** Queries

    The query documents this program builds: a conjunction of clauses,
    each either a condition on one field or an [$or] of field documents. *)
Inductive cond :=
| CEq (v : value)
| CRegex (pattern options : string).

Inductive clause :=
| Field (key : string) (c : cond)
| Or (alts : list (list (string * cond))).

Definition query := list clause.

Definition list_eqb (l1 l2 : list string) : bool :=
  Nat.eqb (length l1) (length l2)
  && forallb (fun p => String.eqb p.1 p.2) (combine l1 l2).

Definition bytes_eqb (l1 l2 : list N) : bool :=
  Nat.eqb (length l1) (length l2)
  && forallb (fun p => N.eqb p.1 p.2) (combine l1 l2).

(** [==] on values. *)
Definition value_eqb (a b : value) : bool :=
  match a, b with
  | VNone, VNone => true
  | VStr s1, VStr s2 => String.eqb s1 s2
  | VFloat x, VFloat y => PrimFloat.eqb x y
  | VList l1, VList l2 => list_eqb l1 l2
  | VDatetime t1, VDatetime t2 => Z.eqb t1 t2
  | VDatetimeTz t1 off1, VDatetimeTz t2 off2 => Z.eqb (t1 - off1) (t2 - off2)
  | VObjectId o1, VObjectId o2 => bytes_eqb o1 o2
  | _, _ => false
  end.

(** ** BSON sort order

    A sort key is ordered first by the rank of its type (empty array,
    then null or missing, numbers, strings, ObjectId, dates), then inside
    the type.  An array sorts by its least element when ascending and by
    its greatest when descending. *)
Definition bkey : Type := Z * Z * Z * Z * string.

Definition float_key (x : float) : Z * Z * Z :=
  match Prim2SF x with
  | S754_nan => (0, 0, 0)
  | S754_infinity true => (1, 0, 0)
  | S754_finite true m e => (2, - e, - Z.pos m)
  | S754_zero _ => (3, 0, 0)
  | S754_finite false m e => (4, e, Z.pos m)
  | S754_infinity false => (5, 0, 0)
  end%Z.

Definition string_min (a b : string) : string :=
  if String.leb a b then a else b.

Definition string_max (a b : string) : string :=
  if String.leb a b then b else a.

Definition bson_key (ascending : bool) (v : option value) : bkey :=
  match v with
  | None | Some VNone => (1, 0, 0, 0, "")
  | Some (VFloat x) => let '(c, a, b) := float_key x in (2, c, a, b, "")
  | Some (VStr s) => (3, 0, 0, 0, s)
  | Some (VList []) => (0, 0, 0, 0, "")
  | Some (VList (s :: l)) =>
      (3, 0, 0, 0, foldr (if ascending then string_min else string_max) s l)
  | Some (VObjectId o) => (7, 0, 0, 0, ObjectId_str o)
  | Some (VDatetime t) => (9, t, 0, 0, "")
  | Some (VDatetimeTz t utcoffset) => (9, t - utcoffset, 0, 0, "")
  end%Z.

Definition then_compare (c : comparison) (k : comparison) : comparison :=
  match c with Eq => k | _ => c end.

Definition bkey_compare (a b : bkey) : comparison :=
  let '(r1, x1, y1, z1, s1) := a in
  let '(r2, x2, y2, z2, s2) := b in
  then_compare (r1 ?= r2)%Z
    (then_compare (x1 ?= x2)%Z
       (then_compare (y1 ?= y2)%Z
          (then_compare (z1 ?= z2)%Z (String.compare s1 s2)))).

Definition bkey_leb (a b : bkey) : bool :=
  match bkey_compare a b with Gt => false | _ => true end.

(** [sort_le key direction a b]: [a] may come before [b] in
    [.sort(key, direction)]. *)
Definition sort_le (key : string) (direction : Z) (a b : doc) : bool :=
  if (0 <? direction)%Z
  then bkey_leb (bson_key true (a !! key)) (bson_key true (b !! key))
  else bkey_leb (bson_key false (b !! key)) (bson_key false (a !! key)).

Fixpoint insert_sorted (le : doc -> doc -> bool) (x : doc) (l : list doc)
  : list doc :=
  match l with
  | [] => [x]
  | y :: l' => if le x y then x :: l else y :: insert_sorted le x l'
  end.

(** A stable sort; the store does not say how it orders equal keys. *)
Definition sort_docs (le : doc -> doc -> bool) (l : list doc) : list doc :=
  foldr (insert_sorted le) [] l.

Fixpoint remove_first (p : doc -> bool) (l : list doc) : option (list doc) :=
  match l with
  | [] => None
  | x :: l' => if p x then Some l' else cons x <$> remove_first p l'
  end.

(** ** The request models *)

Module SignupRequest.
Record t := {
  student_id : string;
  name : string;
  email : string;
  password : string
}.
End SignupRequest.

Module LoginRequest.
Record t := {
  identifier : string;
  password : string
}.
End LoginRequest.

Record CreateItemRequest := {
  title : string;
  description : option string;
  owner_id : option string;
  owner_name : option string;
  location : option string;
  subject : option string;
  price : option float;
  condition : option string;
  url : option string;
  tags : option (list string);
  start_time : option pydatetime;
  end_time : option pydatetime;
  rate_per_hour : option float;
  availability : option string;
  status : option string
}.

Definition opt_value {A} (f : A -> value) (o : option A) : value :=
  match o with Some a => f a | None => VNone end.

(** [payload.model_dump()]: every declared field, in declaration order. *)
Definition model_dump (payload : CreateItemRequest) : list (string * value) :=
  [ ("title", VStr (title payload));
    ("description", opt_value VStr (description payload));
    ("owner_id", opt_value VStr (owner_id payload));
    ("owner_name", opt_value VStr (owner_name payload));
    ("location", opt_value VStr (location payload));
    ("subject", opt_value VStr (subject payload));
    ("price", opt_value VFloat (price payload));
    ("condition", opt_value VStr (condition payload));
    ("url", opt_value VStr (url payload));
    ("tags", opt_value VList (tags payload));
    ("start_time", opt_value datetime_value (start_time payload));
    ("end_time", opt_value datetime_value (end_time payload));
    ("rate_per_hour", opt_value VFloat (rate_per_hour payload));
    ("availability", opt_value VStr (availability payload));
    ("status", opt_value VStr (status payload)) ].

Definition is_not_None (v : value) : bool :=
  match v with VNone => false | _ => true end.

(** ** Responses *)

Record SignupResponse := { id : string; message : string }.

Record LoginResponse := { token : string; user : option doc }.

Record DeleteResponse := { success : bool }.

(** ** Utilities *)

Definition ALLOWED_COLLECTIONS : gmap string string :=
  list_to_map
    [ ("beacons", "beacon");
      ("resources", "resource");
      ("tutors", "tutor");
      ("clubs", "club");
      ("events", "event");
      ("lostfound", "lostfound");
      ("market", "market") ].

Definition oid (id_str : string) : exn + ObjectId :=
  match ObjectId_parse id_str with
  | Some o => inr o
  | None => inl (HTTPException 400 "Invalid id format")
  end.

(** Truth value of an [Optional[str]]: [None] and [""] are false. *)
Definition truthy_str (s : option string) : bool :=
  match s with
  | None => false
  | Some s => negb (String.eqb s "")
  end.

(** Truth value of what [find_one] returns: [None] and [{}] are false. *)
Definition truthy_doc (d : option doc) : bool :=
  match d with
  | None => false
  | Some d => negb (Nat.eqb (size d) 0)
  end.

(** [d.get(key)]. *)
Definition get (d : doc) (key : string) : value :=
  default VNone (d !! key).

Definition build_filter (q location subject : option string) : query :=
  let f : query := [] in
  let f :=
    if truthy_str q
    then (f ++ [Or [ [("title", CRegex (default "" q) "i")];
                     [("description", CRegex (default "" q) "i")] ]])%list
    else f in
  let f :=
    if truthy_str location
    then (f ++ [Field "location" (CRegex (default "" location) "i")])%list
    else f in
  let f :=
    if truthy_str subject
    then (f ++ [Field "subject" (CRegex (default "" subject) "i")])%list
    else f in
  f.

Section WithRuntime.

Context {RT : Runtime}.

(** ** [str] *)

Definition py_str (v : value) : string :=
  match v with
  | VNone => "None"
  | VStr s => s
  | VFloat x => float_repr x
  | VList l => list_repr l
  | VDatetime t => datetime_str t
  | VDatetimeTz t utcoffset => with_space (isoformat_tz t utcoffset)
  | VObjectId o => ObjectId_str o
  end.

(** ** [serialize] *)

(** The loop body of [serialize]: a [datetime] becomes its [isoformat],
    any other value is left alone. *)
Definition render (v : value) : value :=
  match v with
  | VDatetime t => VStr (isoformat t)
  | VDatetimeTz t utcoffset => VStr (isoformat_tz t utcoffset)
  | _ => v
  end.

(** [d["id"] = str(d.pop("_id"))], when [_id] is a key of [d]. *)
Definition rename_id (d : doc) : doc :=
  match d !! "_id" with
  | Some v => <["id" := VStr (py_str v)]> (delete "_id" d)
  | None => d
  end.

Definition serialize (d : option doc) : option doc :=
  match d with
  | None => None
  | Some d => Some (render <$> rename_id d)
  end.

Definition hash_password (password : string) : string :=
  sha256_hexdigest password.

(** ** How the store evaluates a query

    A condition is evaluated on the value stored under the key.  The keys
    this program queries ([title], [description], [location], [subject],
    [student_id], [email], [_id]) hold a string or an ObjectId in every
    document it writes; the store's matching of array elements is not
    modelled. *)
Definition match_cond (c : cond) (v : option value) : bool :=
  match c, v with
  | CEq VNone, None => true
  | CEq w, Some v => value_eqb v w
  | CRegex p o, Some (VStr s) => re_search p o s
  | _, _ => false
  end.

Definition match_fields (fs : list (string * cond)) (d : doc) : bool :=
  forallb (fun kc => match_cond kc.2 (d !! kc.1)) fs.

Definition match_clause (cl : clause) (d : doc) : bool :=
  match cl with
  | Field k c => match_cond c (d !! k)
  | Or alts => existsb (fun fs => match_fields fs d) alts
  end.

Definition matches (f : query) (d : doc) : bool :=
  forallb (fun cl => match_clause cl d) f.

(** The stored field holds a string in which the store's case-insensitive
    regular-expression search finds the term. *)
Definition field_matches (d : doc) (key term : string) : bool :=
  match d !! key with
  | Some (VStr s) => re_search term "i" s
  | _ => false
  end.

(** The store refuses a query that holds a [$regex] it cannot compile. *)
Definition cond_valid (c : cond) : bool :=
  match c with
  | CEq _ => true
  | CRegex p o => re_valid p o
  end.

Definition clause_valid (cl : clause) : bool :=
  match cl with
  | Field _ c => cond_valid c
  | Or alts => forallb (forallb (fun kc => cond_valid kc.2)) alts
  end.

Definition query_valid (f : query) : bool := forallb clause_valid f.

(** A filter argument the store accepts: one that [build_filter] leaves
    out, or a pattern the store compiles under option [i]. *)
Definition term_valid (term : option string) : bool :=
  if truthy_str term then re_valid (default "" term) "i" else true.

(** ** Collection operations

    Each operation raises [OperationFailure] on a query the store
    refuses. *)

(** [db[name].find_one(filt)]: the first match in insertion order. *)
Definition find_one (name : string) (filt : query) : M (option doc) :=
  with_db (fun d =>
    if query_valid filt
    then (inr (List.find (matches filt) (coll d name)), d)
    else (inl OperationFailure, d)).

(** [db[name].find(filt).sort(key, direction)], read to the end. *)
Definition find_sort (name : string) (filt : query) (key : string)
    (direction : Z) : M (list doc) :=
  with_db (fun d =>
    if query_valid filt
    then (inr (sort_docs (sort_le key direction)
                 (List.filter (matches filt) (coll d name))), d)
    else (inl OperationFailure, d)).

(** What [insert_one] writes: the document with the generated [_id], each
    value as BSON keeps it. *)
Definition stored (o : ObjectId) (document : doc) : doc :=
  bson_value <$> <["_id" := VObjectId o]> document.

(** [db[name].insert_one(doc).inserted_id].  The documents this program
    inserts never have an [_id]; the driver generates one. *)
Definition insert_one (name : string) (document : doc) : M ObjectId :=
  with_db (fun d =>
    let o := new_oid d in
    (inr o,
     {| collections :=
          <[name := (coll d name ++ [stored o document])%list]>
            (collections d);
        next_oid := N.succ (next_oid d) |})).

(** [db[name].delete_one(filt).deleted_count]. *)
Definition delete_one (name : string) (filt : query) : M Z :=
  with_db (fun d =>
    if query_valid filt then
      match remove_first (matches filt) (coll d name) with
      | Some l' =>
          (inr 1%Z,
           {| collections := <[name := l']> (collections d);
              next_oid := next_oid d |})
      | None => (inr 0%Z, d)
      end
    else (inl OperationFailure, d)).

(** ** Auth *)

(** [{"$or": [{"student_id": student_id}, {"email": email}]}]. *)
Definition signup_query (student_id email : string) : query :=
  [Or [ [("student_id", CEq (VStr student_id))];
        [("email", CEq (VStr email))] ]].

(** The [user_doc] of [signup]. *)
Definition signup_doc (payload : SignupRequest.t) (now1 now2 : datetime) : doc :=
  list_to_map
    [ ("student_id", VStr (SignupRequest.student_id payload));
      ("name", VStr (SignupRequest.name payload));
      ("email", VStr (SignupRequest.email payload));
      ("password_hash", VStr (hash_password (SignupRequest.password payload)));
      ("avatar_url", VNone);
      ("bio", VNone);
      ("created_at", VDatetime now1);
      ("updated_at", VDatetime now2) ].

Definition signup (payload : SignupRequest.t) (now1 now2 : datetime)
  : M SignupResponse :=
  none <- db_is_None ;;
  if none then raise (HTTPException 500 "Database not configured") else
  existing <- find_one "user"
    (signup_query (SignupRequest.student_id payload)
       (SignupRequest.email payload)) ;;
  if truthy_doc existing
  then raise (HTTPException 400 "Account already exists") else
  let user_doc := signup_doc payload now1 now2 in
  result <- insert_one "user" user_doc ;;
  ret {| id := py_str (VObjectId result);
         message := "Signup successful" |}.

(** [{"$or": [{"email": identifier}, {"student_id": identifier}]}]. *)
Definition login_query (identifier : string) : query :=
  [Or [ [("email", CEq (VStr identifier))];
        [("student_id", CEq (VStr identifier))] ]].

(** The [session_doc] of [login], for the user found. *)
Definition session_doc (user : doc) (token : string) (now1 now2 : datetime)
  : doc :=
  list_to_map
    [ ("user_id", VStr (py_str (get user "_id")));
      ("token", VStr token);
      ("created_at", VDatetime now1);
      ("expires_at", VDatetime (now2 + timedelta_days 7)%Z) ].

Definition login (payload : LoginRequest.t) (uuid : string)
    (now1 now2 : datetime) : M LoginResponse :=
  none <- db_is_None ;;
  if none then raise (HTTPException 500 "Database not configured") else
  user <- find_one "user" (login_query (LoginRequest.identifier payload)) ;;
  match user with
  | None => raise (HTTPException 401 "Invalid credentials")
  | Some found =>
      if negb (truthy_doc user)
         || negb (value_eqb (get found "password_hash")
                    (VStr (hash_password (LoginRequest.password payload))))
      then raise (HTTPException 401 "Invalid credentials") else
      let token := uuid in
      let session_doc := session_doc found token now1 now2 in
      _ <- insert_one "session" session_doc ;;
      ret {| token := token; user := serialize user |}
  end.

(** ** Data fetch endpoints *)

Definition list_beacons (q location subject : option string)
  : M (list (option doc)) :=
  let filt := build_filter q location subject in
  items <- find_sort "beacon" filt "created_at" (-1) ;;
  ret (map (fun x => serialize (Some x)) items).

Definition list_resources (q location subject : option string)
  : M (list (option doc)) :=
  let filt := build_filter q location subject in
  items <- find_sort "resource" filt "created_at" (-1) ;;
  ret (map (fun x => serialize (Some x)) items).

Definition list_tutors (q location subject : option string)
  : M (list (option doc)) :=
  let filt := build_filter q location subject in
  items <- find_sort "tutor" filt "created_at" (-1) ;;
  ret (map (fun x => serialize (Some x)) items).

Definition list_clubs (q location : option string) : M (list (option doc)) :=
  let filt := build_filter q location None in
  items <- find_sort "club" filt "created_at" (-1) ;;
  ret (map (fun x => serialize (Some x)) items).

Definition list_events (q location : option string) : M (list (option doc)) :=
  let filt := build_filter q location None in
  items <- find_sort "event" filt "start_time" 1 ;;
  ret (map (fun x => serialize (Some x)) items).

Definition list_lostfound (q location subject : option string)
  : M (list (option doc)) :=
  let filt := build_filter q location subject in
  items <- find_sort "lostfound" filt "created_at" (-1) ;;
  ret (map (fun x => serialize (Some x)) items).

Definition list_market (q location : option string) : M (list (option doc)) :=
  let filt := build_filter q location None in
  items <- find_sort "market" filt "created_at" (-1) ;;
  ret (map (fun x => serialize (Some x)) items).

(** ** Create (dynamic) *)

(** The dictionary [create_item] hands to [insert_one]. *)
Definition create_item_doc (payload : CreateItemRequest) (now1 now2 : datetime)
  : doc :=
  let doc : doc :=
    list_to_map (List.filter (fun kv => is_not_None kv.2) (model_dump payload)) in
  let doc := <["created_at" := VDatetime now1]> doc in
  let doc := <["updated_at" := VDatetime now2]> doc in
  doc.

Definition create_item (endpoint : string) (payload : CreateItemRequest)
    (now1 now2 : datetime) : M (option doc) :=
  match ALLOWED_COLLECTIONS !! endpoint with
  | None => raise (HTTPException 404 "Unknown endpoint")
  | Some collection =>
      none <- db_is_None ;;
      if none then raise (HTTPException 500 "Database not configured") else
      let doc := create_item_doc payload now1 now2 in
      inserted_id <- insert_one collection doc ;;
      created <- find_one collection [Field "_id" (CEq (VObjectId inserted_id))] ;;
      ret (serialize created)
  end.

(** ** Delete *)

Definition delete_item (endpoint : string) (item_id : string)
  : M DeleteResponse :=
  match ALLOWED_COLLECTIONS !! endpoint with
  | None => raise (HTTPException 404 "Unknown endpoint")
  | Some collection =>
      none <- db_is_None ;;
      if none then raise (HTTPException 500 "Database not configured") else
      match oid item_id with
      | inl e => raise e
      | inr o =>
          deleted_count <- delete_one collection [Field "_id" (CEq (VObjectId o))] ;;
          if (deleted_count =? 0)%Z
          then raise (HTTPException 404 "Item not found")
          else ret {| success := true |}
      end
  end.

End WithRuntime.

(** ** The filter, in the words of the specification

    "Contains" is case-insensitive substring match; a record that lacks
    the field never matches a term that is present; only an absent
    argument imposes no constraint. *)

Definition lower_char (c : ascii) : ascii :=
  let n := N_of_ascii c in
  if ((65 <=? n) && (n <=? 90))%N then ascii_of_N (n + 32) else c.

Fixpoint lower (s : string) : string :=
  match s with
  | EmptyString => EmptyString
  | String c s' => String (lower_char c) (lower s')
  end.

Fixpoint contains (needle hay : string) : bool :=
  String.prefix needle hay
  || match hay with
     | EmptyString => false
     | String _ hay' => contains needle hay'
     end.

Definition contains_ci (needle hay : string) : bool :=
  contains (lower needle) (lower hay).

Definition spec_field_contains (d : doc) (key term : string) : bool :=
  match d !! key with
  | Some (VStr s) => contains_ci term s
  | _ => false
  end.

Definition spec_filter_matches (q location subject : option string) (d : doc)
  : bool :=
  match q with
  | None => true
  | Some q => spec_field_contains d "title" q
              || spec_field_contains d "description" q
  end
  && match location with
     | None => true
     | Some location => spec_field_contains d "location" location
     end
  && match subject with
     | None => true
     | Some subject => spec_field_contains d "subject" subject
     end.

(** ** A runtime to run examples on

    Patterns are taken literally, so that every pattern is accepted and
    a search is the (case-insensitive under option [i]) substring test of
    the specification; [repr] and the digest are stand-ins. *)
Definition literal_runtime : Runtime := {|
  re_valid _ _ := true;
  re_search pattern options text :=
    if String.eqb options "i" then contains_ci pattern text
    else contains pattern text;
  float_repr _ := "<float>";
  list_repr _ := "<list>";
  sha256_hexdigest s := "sha256:" ++ s
|}.

(** ** Sortedness of a listing *)

(** [x] sorts no later than [y] in an ascending (resp. descending, read
    from the back) sort. *)
Definition key_le (ascending : bool) (x y : option value) : Prop :=
  bkey_leb (bson_key ascending x) (bson_key ascending y) = true.

(** Non-decreasing in [key]. *)
Definition ascending_by (key : string) (l : list doc) : Prop :=
  StronglySorted (fun a b => key_le true (a !! key) (b !! key)) l.

(** Non-increasing in [key]. *)
Definition descending_by (key : string) (l : list doc) : Prop :=
  StronglySorted (fun a b => key_le false (b !! key) (a !! key)) l.

(** [lists h d c f sorted]: run on the store [d], the handler [h] leaves
    the store as it is and returns, serialized, the documents of
    collection [c] that match [f], in an order that satisfies [sorted]. *)
Definition lists {RT : Runtime} (h : M (list (option doc))) (d : database)
    (c : string) (f : query) (sorted : list doc -> Prop) : Prop :=
  exists items : list doc,
    h (Some d) = (inr (map (fun x => serialize (Some x)) items), Some d)
    /\ Permutation items (List.filter (matches f) (coll d c))
    /\ sorted items.

(** ** What the store guarantees

    Every stored document carries under [_id] a twelve-byte ObjectId,
    unique in its collection, that the generator has already handed out;
    the generator stays within the twelve bytes of an ObjectId. *)

Definition doc_oid (x : doc) : option ObjectId :=
  match x !! "_id" with
  | Some (VObjectId o) => Some o
  | _ => None
  end.

Definition coll_ok (next : N) (l : list doc) : Prop :=
  Forall (fun x => exists n, doc_oid x = Some (ObjectId_of_N n) /\ (n < next)%N) l
  /\ NoDup (map doc_oid l).

Definition db_ok (d : database) : Prop :=
  (next_oid d < 2 ^ 96)%N
  /\ forall c l, collections d !! c = Some l -> coll_ok (next_oid d) l.

(** The collections behind the seven endpoints. *)
Definition registered (c : string) : Prop :=
  In c ["beacon"; "resource"; "tutor"; "club"; "event"; "lostfound"; "market"].

(** An empty store whose generator starts at [first]. *)
Definition empty_database (first : N) : database :=
  {| collections := ∅; next_oid := first |}.

(** ** Example data *)

Definition desk_lamp : CreateItemRequest := {|
  title := "Desk lamp";
  description := None;
  owner_id := None;
  owner_name := None;
  location := None;
  subject := None;
  price := Some 10%float;
  condition := None;
  url := None;
  tags := None;
  start_time := None;
  end_time := None;
  rate_per_hour := None;
  availability := None;
  status := None
|}.

(** An event that starts at noon, two hours east of UTC. *)
Definition open_day : CreateItemRequest := {|
  title := "Open day";
  description := None;
  owner_id := None;
  owner_name := None;
  location := Some "Main hall";
  subject := None;
  price := None;
  condition := None;
  url := None;
  tags := None;
  start_time := Some (Aware (mk_datetime 2024 5 1 12 0 0) (2 * 3600 * 1000000));
  end_time := None;
  rate_per_hour := None;
  availability := None;
  status := None
|}.

(** The number of [ObjectId("65a1b2c3d4e5f60718293a4b")]. *)
Definition example_oid : N := 31453467242603790624579205707%N.

(** The fields declared by [CreateItemRequest]. *)
Definition request_model_keys : list string :=
  [ "title"; "description"; "owner_id"; "owner_name"; "location"; "subject";
    "price"; "condition"; "url"; "tags"; "start_time"; "end_time";
    "rate_per_hour"; "availability"; "status" ].

(** The public endpoint names. *)
Definition endpoint_names : list string :=
  ["beacons"; "resources"; "tutors"; "clubs"; "events"; "lostfound"; "market"].

(** The store [d] after [x] was appended to collection [c] under the
    next generated identifier. *)
Definition inserted (d : database) (c : string) (x : doc) : database :=
  {| collections :=
       <[c := (coll d c ++ [stored (new_oid d) x])%list]> (collections d);
     next_oid := N.succ (next_oid d) |}.

(** The store [d] with collection [c] replaced by [l]. *)
Definition replaced (d : database) (c : string) (l : list doc) : database :=
  {| collections := <[c := l]> (collections d); next_oid := next_oid d |}.



(** ** Accounts *)

(** The user document [u] has this student id or this email. *)
Definition same_account (student_id email : string) (u : doc) : Prop :=
  u !! "student_id" = Some (VStr student_id) \/ u !! "email" = Some (VStr email).

(** A user with this student id or this email already exists. *)
Definition account_taken (d : database) (student_id email : string) : Prop :=
  exists u, In u (coll d "user") /\ same_account student_id email u.

(** The user document [u] has the identifier as its email or student id. *)
Definition identified_by (identifier : string) (u : doc) : Prop :=
  u !! "email" = Some (VStr identifier)
  \/ u !! "student_id" = Some (VStr identifier).

Definition alice : SignupRequest.t := {|
  SignupRequest.student_id := "s1001";
  SignupRequest.name := "Alice";
  SignupRequest.email := "alice@uni.example";
  SignupRequest.password := "correct horse"
|}.

(** ** Unique accounts *)



(** [d'] has every user and every session of [d], unchanged and in the
    same place, possibly followed by new ones. *)
Definition accounts_kept (d d' : database) : Prop :=
  (exists new, coll d' "user" = (coll d "user" ++ new)%list)
  /\ (exists new, coll d' "session" = (coll d "session" ++ new)%list).

(** A user whose student id is written like an email address. *)
Definition bob_at : SignupRequest.t := {|
  SignupRequest.student_id := "carol@uni.example";
  SignupRequest.name := "Bob";
  SignupRequest.email := "bob@uni.example";
  SignupRequest.password := "bob's password"
|}.

Definition carol : SignupRequest.t := {|
  SignupRequest.student_id := "s3003";
  SignupRequest.name := "Carol";
  SignupRequest.email := "carol@uni.example";
  SignupRequest.password := "carol's password"
|}.

(** ** The written form of an identifier *)

Fixpoint all_chars (p : ascii -> bool) (s : string) : bool :=
  match s with
  | EmptyString => true
  | String c s' => p c && all_chars p s'
  end.

Definition is_hex_digit (c : ascii) : bool :=
  match hex_value c with Some _ => true | None => false end.

(** The written form of a twelve-byte identifier: 24 hexadecimal
    digits. *)
Definition hex_digits_24 (s : string) : bool :=
  Nat.eqb (String.length s) 24 && all_chars is_hex_digit s.

(** What [bytes.fromhex] reads, as a grammar: bytes of two adjacent
    hexadecimal digits, with ASCII whitespace before, between and after
    them. *)
Inductive hex_bytes : string -> list N -> Prop :=
| hex_bytes_end : hex_bytes "" []
| hex_bytes_space c s bs :
    is_space c = true -> hex_bytes s bs -> hex_bytes (String c s) bs
| hex_bytes_byte c1 c2 hi lo s bs :
    hex_value c1 = Some hi -> hex_value c2 = Some lo -> hex_bytes s bs ->
    hex_bytes (String c1 (String c2 s)) ((16 * hi + lo)%N :: bs).

(** An identifier string of 22 digits followed by two spaces. *)
Definition padded_id : string := "65a1b2c3d4e5f60718293a  ".

(** ** The generic list handler and the route table *)

(** [list_items]: its [inner] function is defined and never called; the
    handler returns a fixed dictionary. *)
Definition list_items (q location subject : option string) : M doc :=
  ret {[ "detail" := VStr "Improper call" ]}.

(** The functions behind the routes: those of [main.py], and the four
    that [FastAPI()] registers itself for the OpenAPI document and its
    two viewers. *)
Inductive handler :=
| H_openapi | H_swagger_ui_html | H_swagger_ui_redirect | H_redoc_html
| H_root | H_test_database | H_signup | H_login | H_list_items
| H_list_beacons | H_list_resources | H_list_tutors | H_list_clubs
| H_list_events | H_list_lostfound | H_list_market
| H_create_item | H_delete_item.

(** A path template is a list of segments: a literal one, or a parameter
    such as [{endpoint}]. *)
Inductive segment :=
| Lit (s : string)
| Param (name : string).

Record route := {
  route_methods : list string;
  route_path : list segment;
  route_handler : handler
}.

(** A route of [main.py]: [@app.get], [@app.post] and [@app.delete]
    register the path for that one method. *)
Definition api_route (method : string) (path : list segment) (h : handler)
  : route :=
  {| route_methods := [method]; route_path := path; route_handler := h |}.

(** A route added by [FastAPI.setup] through [add_route]: it answers
    [GET] and [HEAD]. *)
Definition plain_route (path : list segment) (h : handler) : route :=
  {| route_methods := ["GET"; "HEAD"]; route_path := path;
     route_handler := h |}.

(** The routes in the order in which they are registered: first those of
    [FastAPI()] itself, then those of [main.py].  Stacked decorators
    apply from the bottom up, so of the seven routes of [list_items] the
    one for [/market] is registered first. *)
Definition routes : list route :=
  [ plain_route [Lit "openapi.json"] H_openapi;
    plain_route [Lit "docs"] H_swagger_ui_html;
    plain_route [Lit "docs"; Lit "oauth2-redirect"] H_swagger_ui_redirect;
    plain_route [Lit "redoc"] H_redoc_html;
    api_route "GET" [] H_root;
    api_route "GET" [Lit "test"] H_test_database;
    api_route "POST" [Lit "signup"] H_signup;
    api_route "POST" [Lit "login"] H_login;
    api_route "GET" [Lit "market"] H_list_items;
    api_route "GET" [Lit "lostfound"] H_list_items;
    api_route "GET" [Lit "events"] H_list_items;
    api_route "GET" [Lit "clubs"] H_list_items;
    api_route "GET" [Lit "tutors"] H_list_items;
    api_route "GET" [Lit "resources"] H_list_items;
    api_route "GET" [Lit "beacons"] H_list_items;
    api_route "GET" [Lit "beacons"] H_list_beacons;
    api_route "GET" [Lit "resources"] H_list_resources;
    api_route "GET" [Lit "tutors"] H_list_tutors;
    api_route "GET" [Lit "clubs"] H_list_clubs;
    api_route "GET" [Lit "events"] H_list_events;
    api_route "GET" [Lit "lostfound"] H_list_lostfound;
    api_route "GET" [Lit "market"] H_list_market;
    api_route "POST" [Param "endpoint"] H_create_item;
    api_route "DELETE" [Param "endpoint"; Param "item_id"] H_delete_item ].

(** A literal segment matches itself; a parameter matches any non-empty
    segment. *)
Definition segment_matches (seg : segment) (s : string) : bool :=
  match seg with
  | Lit l => String.eqb l s
  | Param _ => negb (String.eqb s "")
  end.

Fixpoint path_matches (template : list segment) (path : list string) : bool :=
  match template, path with
  | [], [] => true
  | seg :: template', s :: path' =>
      segment_matches seg s && path_matches template' path'
  | _, _ => false
  end.

Fixpoint path_params (template : list segment) (path : list string)
  : list (string * string) :=
  match template, path with
  | Param name :: template', s :: path' =>
      (name, s) :: path_params template' path'
  | Lit _ :: template', _ :: path' => path_params template' path'
  | _, _ => []
  end.

(** [path.rstrip("/")] on the segments of a path; [None] when nothing but
    slashes is stripped, which leaves the empty string and not [/]. *)
Fixpoint rstrip_slashes (path : list string) : option (list string) :=
  match path with
  | [] => None
  | s :: path' =>
      match rstrip_slashes path' with
      | Some p => Some (s :: p)
      | None => if String.eqb s "" then None else Some [s]
      end
  end.

(** The path the router tries when no route matched ([redirect_slashes]):
    without its trailing slashes when it has some, with one added
    otherwise.  The path [/] is never redirected. *)
Definition redirect_path (path : list string) : option (list string) :=
  match path with
  | [] => None
  | _ :: _ =>
      if String.eqb (List.last path "-") "" then rstrip_slashes path
      else Some (path ++ [""])%list
  end.

Inductive resolution :=
| Calls (h : handler) (params : list (string * string))
| MethodNotAllowed
| Redirects (path : list string)
| RouteNotFound.

(** A route matches a request when its path template and one of its
    methods do. *)
Definition route_matches (method : string) (path : list string) (r : route)
  : bool :=
  path_matches (route_path r) path
  && existsb (String.eqb method) (route_methods r).

Definition some_path_matches (path : list string) : bool :=
  existsb (fun r => path_matches (route_path r) path) routes.

(** The router's rule: the first route, in registration order, whose path
    and method both match handles the request; when only paths matched
    the answer is 405; when none did and the path with its trailing slash
    removed or added matches a route, the answer is a redirect (307) to
    that path; otherwise it is 404.  The path is given by its segments,
    [/market] as [["market"]], [/market/] as [["market"; ""]] and [/] as
    [[]]. *)
Definition resolve (method : string) (path : list string) : resolution :=
  match List.find (route_matches method path) routes with
  | Some r => Calls (route_handler r) (path_params (route_path r) path)
  | None =>
      if some_path_matches path then MethodNotAllowed
      else
        match redirect_path path with
        | Some path' =>
            if some_path_matches path' then Redirects path'
            else RouteNotFound
        | None => RouteNotFound
        end
  end.

(** The seven explicit list handlers. *)
Definition explicit_list_handlers : list handler :=
  [ H_list_beacons; H_list_resources; H_list_tutors; H_list_clubs;
    H_list_events; H_list_lostfound; H_list_market ].

(** The seven explicit list handlers as functions, each called with the
    query parameters it declares and paired with the collection it
    reads. *)
Definition explicit_list_calls {RT : Runtime} (q location subject : option string)
  : list (string * M (list (option doc))) :=
  [ ("beacon", list_beacons q location subject);
    ("resource", list_resources q location subject);
    ("tutor", list_tutors q location subject);
    ("club", list_clubs q location);
    ("event", list_events q location);
    ("lostfound", list_lostfound q location subject);
    ("market", list_market q location) ].

(** * Properties *)

(** ** The serializer *)

Section Serializer.

Context {RT : Runtime}.

Lemma render_idemp (v : value) : render (render v) = render v.
Proof. destruct v; reflexivity. Qed.

Lemma render_not_datetime (v : value) (t : datetime) : render v <> VDatetime t.
Proof. destruct v; discriminate. Qed.

Lemma render_not_datetime_tz (v : value) (t : datetime) (utcoffset : Z) :
  render v <> VDatetimeTz t utcoffset.
Proof. destruct v; discriminate. Qed.

Lemma rename_id_no_internal_id (d : doc) : rename_id d !! "_id" = None.
Proof.
  unfold rename_id. destruct (d !! "_id") eqn:E; [|exact E].
  rewrite lookup_insert_ne by discriminate. apply lookup_delete_eq.
Qed.

Lemma rename_id_other (d : doc) (k : string) :
  k <> "_id" -> k <> "id" -> rename_id d !! k = d !! k.
Proof.
  intros H1 H2. unfold rename_id. destruct (d !! "_id"); [|reflexivity].
  rewrite lookup_insert_ne by congruence. apply lookup_delete_ne. congruence.
Qed.

Lemma rename_id_fixed (d : doc) : d !! "_id" = None -> rename_id d = d.
Proof. intros H. unfold rename_id. rewrite H. reflexivity. Qed.

(** C8: [serialize(None)] is [None]; on a record, [serialize] returns a
    map in which [_id] is gone and [id] holds the string form of what
    [_id] held (the hexadecimal digits of its bytes for an ObjectId),
    every other field that held a timestamp holds its ISO-8601 string
    (with the offset as suffix when the timestamp carries one), and every
    other field, [None] included, holds what it held; a record without
    [_id] only has its timestamps rendered; no timestamp is left in the
    result. *)
Theorem serialize_spec :
  serialize None = None
  /\ forall d : doc, exists d' : doc,
       serialize (Some d) = Some d'
       /\ d' !! "_id" = None
       /\ (forall v, d !! "_id" = Some v -> d' !! "id" = Some (VStr (py_str v)))
       /\ (forall o, d !! "_id" = Some (VObjectId o) ->
             d' !! "id" = Some (VStr (ObjectId_str o)))
       /\ (forall k t, k <> "_id" -> k <> "id" ->
             d !! k = Some (VDatetime t) -> d' !! k = Some (VStr (isoformat t)))
       /\ (forall k t utcoffset, k <> "_id" -> k <> "id" ->
             d !! k = Some (VDatetimeTz t utcoffset) ->
             d' !! k = Some (VStr (isoformat_tz t utcoffset)))
       /\ (forall k v, k <> "_id" -> k <> "id" ->
             d !! k = Some v -> (forall t, v <> VDatetime t) ->
             (forall t utcoffset, v <> VDatetimeTz t utcoffset) ->
             d' !! k = Some v)
       /\ (forall k, k <> "_id" -> k <> "id" -> d !! k = None -> d' !! k = None)
       /\ (d !! "_id" = None -> d' = render <$> d)
       /\ (forall k t, d' !! k <> Some (VDatetime t))
       /\ (forall k t utcoffset, d' !! k <> Some (VDatetimeTz t utcoffset)).
Proof.
  split; [reflexivity|]. intros d. exists (render <$> rename_id d).
  assert (Hid : forall v, d !! "_id" = Some v ->
            (render <$> rename_id d) !! "id" = Some (VStr (py_str v))).
  { intros v Hv. rewrite lookup_fmap. unfold rename_id. rewrite Hv.
    rewrite lookup_insert_eq. reflexivity. }
  repeat split.
  - rewrite lookup_fmap, rename_id_no_internal_id. reflexivity.
  - exact Hid.
  - intros o Ho. apply (Hid _ Ho).
  - intros k t H1 H2 Hk. rewrite lookup_fmap, rename_id_other, Hk by assumption.
    reflexivity.
  - intros k t utcoffset H1 H2 Hk.
    rewrite lookup_fmap, rename_id_other, Hk by assumption. reflexivity.
  - intros k v H1 H2 Hk Hv Hw.
    rewrite lookup_fmap, rename_id_other, Hk by assumption.
    destruct v; try reflexivity; exfalso; [eapply Hv|eapply Hw]; reflexivity.
  - intros k H1 H2 Hk. rewrite lookup_fmap, rename_id_other, Hk by assumption.
    reflexivity.
  - intros H. rewrite rename_id_fixed by exact H. reflexivity.
  - intros k t. rewrite lookup_fmap. destruct (rename_id d !! k) as [v|]; simpl.
    + intros [=H]. exact (render_not_datetime _ _ H).
    + discriminate.
  - intros k t utcoffset. rewrite lookup_fmap.
    destruct (rename_id d !! k) as [v|]; simpl.
    + intros [=H]. exact (render_not_datetime_tz _ _ _ H).
    + discriminate.
Qed.

(** C9: serializing a serialized record changes nothing. *)
Theorem serialize_idempotent (d : option doc) :
  serialize (serialize d) = serialize d.
Proof.
  destruct d as [d|]; [|reflexivity]. simpl. f_equal.
  rewrite rename_id_fixed
    by (rewrite lookup_fmap, rename_id_no_internal_id; reflexivity).
  rewrite <- map_fmap_compose. apply map_fmap_ext.
  intros k v _. simpl. apply render_idemp.
Qed.

End Serializer.

(** ** The filter builder *)

Section FilterBuilder.

Context {RT : Runtime}.

Lemma match_regex_field (d : doc) (key term : string) :
  match_cond (CRegex term "i") (d !! key) = field_matches d key term.
Proof. unfold field_matches. destruct (d !! key) as [[]|]; reflexivity. Qed.

Lemma matches_build_filter (q location subject : option string) (d : doc) :
  matches (build_filter q location subject) d
  = (negb (truthy_str q)
     || field_matches d "title" (default "" q)
     || field_matches d "description" (default "" q))
    && (negb (truthy_str location)
        || field_matches d "location" (default "" location))
    && (negb (truthy_str subject)
        || field_matches d "subject" (default "" subject)).
Proof.
  unfold build_filter, matches.
  destruct (truthy_str q), (truthy_str location), (truthy_str subject);
    cbn [app forallb existsb match_clause match_fields fst snd negb orb andb];
    rewrite ?match_regex_field;
    repeat match goal with
    | |- context [field_matches ?a ?b ?c] => destruct (field_matches a b c)
    end; reflexivity.
Qed.

(** C1, as the code has it: a record matches the filter exactly when, for
    each of the three arguments, the argument is absent or empty, or the
    store's case-insensitive search finds it in the stored string (in
    [title] or [description] for the query).  An empty string imposes no
    constraint, like an absent argument: with [location=""] every record
    matches, whether it has a location or not. *)
Theorem build_filter_matches :
  (forall (q location subject : option string) (d : doc),
     matches (build_filter q location subject) d
     = (negb (truthy_str q)
        || field_matches d "title" (default "" q)
        || field_matches d "description" (default "" q))
       && (negb (truthy_str location)
           || field_matches d "location" (default "" location))
       && (negb (truthy_str subject)
           || field_matches d "subject" (default "" subject)))
  /\ (forall s : option string,
        truthy_str s = false <-> s = None \/ s = Some "")
  /\ (forall (key term : string) (d : doc),
        field_matches d key term = true
        <-> exists s, d !! key = Some (VStr s) /\ re_search term "i" s = true)
  /\ (forall (q location subject : option string),
        build_filter (Some "") location subject = build_filter None location subject
        /\ build_filter q (Some "") subject = build_filter q None subject
        /\ build_filter q location (Some "") = build_filter q location None)
  /\ (forall d : doc, matches (build_filter None (Some "") None) d = true).
Proof.
  split; [exact matches_build_filter|]. split; [|split; [|split]].
  - intros [[|c r]|]; simpl; split; intros H; try discriminate; auto;
      destruct H as [H|H]; discriminate.
  - intros key term d. unfold field_matches.
    destruct (d !! key) as [[]|]; split;
      try discriminate; try (intros (s' & [= <-] & H); exact H);
      try (intros (s' & H & _); discriminate); eauto.
  - intros q location subject. repeat split.
  - reflexivity.
Qed.

End FilterBuilder.

(** C1, as stated, fails: with [location=""] the code builds the empty
    filter, which a record without a location matches, while the stated
    predicate rejects a record that lacks the field of a present term. *)
Lemma build_filter_empty_term_counterexample :
  matches (RT := literal_runtime) (build_filter None (Some "") None)
    {[ "title" := VStr "Desk lamp" ]} = true
  /\ spec_filter_matches None (Some "") None {[ "title" := VStr "Desk lamp" ]}
     = false.
Proof. split; reflexivity. Qed.

(** ** The sort order of the store *)

Lemma string_compare_trans (s1 s2 s3 : string) :
  String.compare s1 s2 <> Gt -> String.compare s2 s3 <> Gt ->
  String.compare s1 s3 <> Gt.
Proof.
  revert s2 s3. induction s1 as [|c1 s1 IH]; intros [|c2 s2] [|c3 s3];
    simpl; try congruence.
  unfold Ascii.compare.
  destruct (N.compare_spec (N_of_ascii c1) (N_of_ascii c2)),
           (N.compare_spec (N_of_ascii c2) (N_of_ascii c3)),
           (N.compare_spec (N_of_ascii c1) (N_of_ascii c3));
    try congruence; try lia.
  apply IH.
Qed.

Lemma then_compare_trans (a1 a2 a3 : Z) (k12 k23 k13 : comparison) :
  (k12 <> Gt -> k23 <> Gt -> k13 <> Gt) ->
  then_compare (a1 ?= a2)%Z k12 <> Gt ->
  then_compare (a2 ?= a3)%Z k23 <> Gt ->
  then_compare (a1 ?= a3)%Z k13 <> Gt.
Proof.
  intros Hk.
  destruct (Z.compare_spec a1 a2), (Z.compare_spec a2 a3),
           (Z.compare_spec a1 a3); simpl; try congruence; try lia.
  exact Hk.
Qed.

Lemma then_compare_opp (a b : Z) (k k' : comparison) :
  k' = CompOpp k ->
  then_compare (b ?= a)%Z k' = CompOpp (then_compare (a ?= b)%Z k).
Proof.
  intros ->. rewrite (Z.compare_antisym a b).
  destruct (a ?= b)%Z; reflexivity.
Qed.

Lemma bkey_compare_opp (a b : bkey) :
  bkey_compare b a = CompOpp (bkey_compare a b).
Proof.
  destruct a as [[[[r1 x1] y1] z1] s1], b as [[[[r2 x2] y2] z2] s2].
  unfold bkey_compare. repeat apply then_compare_opp.
  apply String.compare_antisym.
Qed.

Lemma bkey_leb_gt (a b : bkey) : bkey_leb a b = true <-> bkey_compare a b <> Gt.
Proof. unfold bkey_leb. destruct (bkey_compare a b); split; congruence. Qed.

Lemma bkey_leb_total (a b : bkey) : bkey_leb a b = false -> bkey_leb b a = true.
Proof.
  unfold bkey_leb. rewrite (bkey_compare_opp a b).
  destruct (bkey_compare a b); simpl; congruence.
Qed.

Lemma bkey_leb_trans (a b c : bkey) :
  bkey_leb a b = true -> bkey_leb b c = true -> bkey_leb a c = true.
Proof.
  rewrite !bkey_leb_gt.
  destruct a as [[[[r1 x1] y1] z1] s1], b as [[[[r2 x2] y2] z2] s2],
           c as [[[[r3 x3] y3] z3] s3].
  unfold bkey_compare. repeat apply then_compare_trans.
  apply string_compare_trans.
Qed.

Lemma key_le_datetime (ascending : bool) (t1 t2 : datetime) :
  key_le ascending (Some (VDatetime t1)) (Some (VDatetime t2)) <-> (t1 <= t2)%Z.
Proof.
  unfold key_le. rewrite bkey_leb_gt. unfold bson_key, bkey_compare. simpl.
  destruct (Z.compare_spec t1 t2); simpl; split; intros; try congruence; lia.
Qed.

Lemma key_le_missing_first (ascending : bool) (t : datetime) :
  key_le ascending None (Some (VDatetime t)).
Proof. reflexivity. Qed.

(** ** Insertion sort *)

Section InsertionSort.

Variable le : doc -> doc -> bool.

Lemma insert_sorted_perm (x : doc) (l : list doc) :
  Permutation (insert_sorted le x l) (x :: l).
Proof.
  induction l as [|y l IH]; simpl; [reflexivity|].
  destruct (le x y); [reflexivity|].
  rewrite IH. apply perm_swap.
Qed.

Lemma sort_docs_perm (l : list doc) : Permutation (sort_docs le l) l.
Proof.
  induction l as [|x l IH]; simpl; [reflexivity|].
  rewrite insert_sorted_perm. apply perm_skip, IH.
Qed.

Hypothesis le_total : forall a b, le a b = false -> le b a = true.
Hypothesis le_trans : forall a b c, le a b = true -> le b c = true -> le a c = true.

Lemma insert_sorted_sorted (x : doc) (l : list doc) :
  StronglySorted (fun a b => le a b = true) l ->
  StronglySorted (fun a b => le a b = true) (insert_sorted le x l).
Proof.
  induction 1 as [|y l Hl IH Hy]; simpl.
  - repeat constructor.
  - destruct (le x y) eqn:E.
    + constructor; [constructor; assumption|].
      constructor; [exact E|].
      eapply Forall_impl; [exact Hy|]. intros z Hz. simpl in Hz.
      exact (le_trans _ _ _ E Hz).
    + constructor; [exact IH|].
      eapply Permutation_Forall; [symmetry; apply insert_sorted_perm|].
      constructor; [apply le_total, E | exact Hy].
Qed.

Lemma sort_docs_sorted (l : list doc) :
  StronglySorted (fun a b => le a b = true) (sort_docs le l).
Proof.
  induction l as [|x l IH]; simpl; [constructor|].
  apply insert_sorted_sorted, IH.
Qed.

End InsertionSort.

Lemma sort_le_ascending (key : string) (l : list doc) :
  ascending_by key (sort_docs (sort_le key 1) l).
Proof.
  apply (sort_docs_sorted (sort_le key 1)); unfold sort_le; simpl.
  - intros a b. apply bkey_leb_total.
  - intros a b c. apply bkey_leb_trans.
Qed.

Lemma sort_le_descending (key : string) (l : list doc) :
  descending_by key (sort_docs (sort_le key (-1)) l).
Proof.
  apply (sort_docs_sorted (sort_le key (-1))); unfold sort_le; simpl.
  - intros a b. apply bkey_leb_total.
  - intros a b c H1 H2. exact (bkey_leb_trans _ _ _ H2 H1).
Qed.

(** ** The list handlers *)

Section Listing.

Context {RT : Runtime}.

Lemma query_valid_build_filter (q location subject : option string) :
  query_valid (build_filter q location subject)
  = term_valid q && term_valid location && term_valid subject.
Proof.
  unfold build_filter, term_valid.
  destruct (truthy_str q), (truthy_str location), (truthy_str subject); simpl;
    repeat match goal with |- context [re_valid ?p ?o] =>
      destruct (re_valid p o) end; reflexivity.
Qed.

Lemma find_sort_refused (c : string) (f : query) (key : string)
    (direction : Z) (d : database) :
  query_valid f = false ->
  (items <- find_sort c f key direction ;;
   ret (map (fun x => serialize (Some x)) items)) (Some d)
  = (inl OperationFailure, Some d).
Proof. intros H. unfold bind, find_sort, with_db. rewrite H. reflexivity. Qed.

Lemma find_sort_lists (c : string) (f : query) (key : string) (d : database) :
  query_valid f = true ->
  (lists (items <- find_sort c f key 1 ;;
          ret (map (fun x => serialize (Some x)) items))
     d c f (ascending_by key))
  /\ (lists (items <- find_sort c f key (-1) ;;
             ret (map (fun x => serialize (Some x)) items))
        d c f (descending_by key)).
Proof.
  intros Hf.
  split; eexists;
    (split; [unfold bind, find_sort, with_db; rewrite Hf; reflexivity|]); split;
    auto using sort_docs_perm, sort_le_ascending, sort_le_descending.
Qed.

Lemma allowed_endpoint (endpoint c : string) :
  ALLOWED_COLLECTIONS !! endpoint = Some c ->
  In (endpoint, c)
    [ ("beacons", "beacon"); ("resources", "resource"); ("tutors", "tutor");
      ("clubs", "club"); ("events", "event"); ("lostfound", "lostfound");
      ("market", "market") ].
Proof.
  intros H. apply list_elem_of_In.
  apply (elem_of_list_to_map_2 (M := gmap string)). exact H.
Qed.

End Listing.

(** ** Facts about the store *)

Lemma value_eqb_str (v : value) (s : string) :
  value_eqb v (VStr s) = true <-> v = VStr s.
Proof.
  destruct v; simpl; split; try congruence.
  - intros H. apply String.eqb_eq in H. congruence.
  - intros [= ->]. apply String.eqb_refl.
Qed.

Lemma bytes_eqb_eq (l1 l2 : list N) : bytes_eqb l1 l2 = true <-> l1 = l2.
Proof.
  unfold bytes_eqb. revert l2.
  induction l1 as [|a l1 IH]; intros [|b l2]; simpl; split;
    try congruence; try reflexivity.
  - intros H. apply andb_true_iff in H as [Hlen H].
    apply andb_true_iff in H as [Hab H]. apply N.eqb_eq in Hab. subst b.
    f_equal. apply IH. rewrite Hlen. exact H.
  - intros [= -> ->]. rewrite N.eqb_refl. simpl.
    apply (proj2 (IH l2)). reflexivity.
Qed.

Lemma value_eqb_oid (v : value) (o : ObjectId) :
  value_eqb v (VObjectId o) = true <-> v = VObjectId o.
Proof.
  destruct v; simpl; split; try congruence.
  - intros H. apply bytes_eqb_eq in H. congruence.
  - intros [= ->]. apply bytes_eqb_eq. reflexivity.
Qed.

Lemma doc_oid_lookup (x : doc) (o : ObjectId) :
  doc_oid x = Some o <-> x !! "_id" = Some (VObjectId o).
Proof.
  unfold doc_oid. destruct (x !! "_id") as [[]|]; split; congruence.
Qed.

Lemma find_app_none {A} (p : A -> bool) (l1 l2 : list A) :
  List.find p l1 = None -> List.find p (l1 ++ l2) = List.find p l2.
Proof.
  induction l1 as [|x l1 IH]; simpl; [reflexivity|].
  destruct (p x); [discriminate|exact IH].
Qed.

Lemma find_none_iff {A} (p : A -> bool) (l : list A) :
  List.find p l = None <-> forall x, In x l -> p x = false.
Proof.
  split; [apply List.find_none|].
  induction l as [|x l IH]; simpl; [reflexivity|]. intros H.
  rewrite (H x) by (left; reflexivity). apply IH. intros y Hy. apply H. right. exact Hy.
Qed.

Lemma db_ok_coll (d : database) (c : string) :
  db_ok d -> coll_ok (next_oid d) (coll d c).
Proof.
  intros [_ H]. unfold coll. destruct (collections d !! c) as [l|] eqn:E; simpl.
  - exact (H c l E).
  - split; constructor.
Qed.

Lemma db_ok_empty (first : N) :
  (first < 2 ^ 96)%N -> db_ok (empty_database first).
Proof.
  intros H. split; [exact H|]. intros c l. simpl. rewrite lookup_empty. discriminate.
Qed.

Section StoreFacts.

Context {RT : Runtime}.

Lemma matches_id (o : ObjectId) (x : doc) :
  matches [Field "_id" (CEq (VObjectId o))] x = true <-> doc_oid x = Some o.
Proof.
  rewrite doc_oid_lookup. simpl. rewrite andb_true_r.
  destruct (x !! "_id") as [v|]; simpl.
  - rewrite value_eqb_oid. split; congruence.
  - split; discriminate.
Qed.

Lemma matches_id_false (o : ObjectId) (x : doc) :
  matches [Field "_id" (CEq (VObjectId o))] x = false <-> doc_oid x <> Some o.
Proof.
  rewrite <- matches_id. destruct (matches _ x); split; congruence.
Qed.

End StoreFacts.
(** ** ObjectId and its string form *)

Lemma hex_value_hex_char (n : N) : (n < 16)%N -> hex_value (hex_char n) = Some n.
Proof.
  intros H. destruct n as [|p]; [reflexivity|].
  do 4 (try destruct p as [p|p|]); try reflexivity; exfalso; lia.
Qed.

Lemma hex_value_bound (c : ascii) (v : N) : hex_value c = Some v -> (v < 16)%N.
Proof.
  destruct c as [[] [] [] [] [] [] [] []]; vm_compute;
    intros H; inversion H; reflexivity.
Qed.

(** A hexadecimal digit is not whitespace. *)
Lemma hex_not_space (c : ascii) (v : N) : hex_value c = Some v -> is_space c = false.
Proof.
  destruct c as [[] [] [] [] [] [] [] []]; vm_compute;
    intros H; inversion H; reflexivity.
Qed.

Lemma fromhex_hexlify (bs : list N) :
  Forall (fun b => (b < 256)%N) bs -> fromhex (hexlify bs) = Some bs.
Proof.
  induction 1 as [|b bs Hb _ IH]; [reflexivity|].
  assert (Hhi : (b / 16 < 16)%N) by (apply N.Div0.div_lt_upper_bound; lia).
  assert (Hlo : (b mod 16 < 16)%N) by (apply N.mod_lt; discriminate).
  cbn [hexlify fromhex].
  rewrite (hex_not_space _ _ (hex_value_hex_char _ Hhi)).
  rewrite (hex_value_hex_char _ Hhi), (hex_value_hex_char _ Hlo), IH.
  simpl. do 2 f_equal. rewrite (N.div_mod b 16) at 3 by discriminate. reflexivity.
Qed.

Lemma hexlify_length (bs : list N) :
  String.length (hexlify bs) = 2 * length bs.
Proof. induction bs as [|b bs IH]; simpl; [reflexivity|]. rewrite IH. lia. Qed.

Lemma bytes_of_N_length (w : nat) (n : N) : length (bytes_of_N w n) = w.
Proof.
  revert n. induction w as [|w IH]; intros n; [reflexivity|].
  cbn [bytes_of_N]. rewrite length_app, IH. simpl. lia.
Qed.

Lemma bytes_of_N_small (w : nat) (n : N) :
  Forall (fun b => (b < 256)%N) (bytes_of_N w n).
Proof.
  revert n. induction w as [|w IH]; intros n; [constructor|].
  cbn [bytes_of_N]. apply Forall_app. split; [apply IH|].
  constructor; [|constructor]. apply N.mod_lt. discriminate.
Qed.

Lemma bytes_of_N_inj (w : nat) (n1 n2 : N) :
  bytes_of_N w n1 = bytes_of_N w n2 ->
  (n1 mod 256 ^ N.of_nat w = n2 mod 256 ^ N.of_nat w)%N.
Proof.
  revert n1 n2. induction w as [|w IH]; intros n1 n2 H.
  - simpl. rewrite !N.mod_1_r. reflexivity.
  - cbn [bytes_of_N] in H. apply app_inj_tail in H as [H1 H2].
    apply IH in H1. rewrite Nat2N.inj_succ, N.pow_succ_r'.
    rewrite !(N.Div0.mod_mul_r _ 256). congruence.
Qed.

Lemma ObjectId_of_N_length (n : N) : length (ObjectId_of_N n) = 12.
Proof. apply bytes_of_N_length. Qed.

(** The generator hands out a different identifier for each number. *)
Lemma ObjectId_of_N_inj (n1 n2 : N) :
  (n1 < 2 ^ 96)%N -> (n2 < 2 ^ 96)%N ->
  ObjectId_of_N n1 = ObjectId_of_N n2 -> n1 = n2.
Proof.
  intros H1 H2 E. apply bytes_of_N_inj in E.
  change (256 ^ N.of_nat 12)%N with (2 ^ 96)%N in E.
  rewrite !N.mod_small in E by assumption. exact E.
Qed.

(** The string form of a generated identifier has 24 characters. *)
Lemma ObjectId_str_length (n : N) :
  String.length (ObjectId_str (ObjectId_of_N n)) = 24.
Proof.
  unfold ObjectId_str. rewrite hexlify_length, ObjectId_of_N_length. reflexivity.
Qed.

(** Parsing the string form of a generated identifier gives it back. *)
Lemma ObjectId_parse_str (n : N) :
  ObjectId_parse (ObjectId_str (ObjectId_of_N n)) = Some (ObjectId_of_N n).
Proof.
  unfold ObjectId_parse. rewrite ObjectId_str_length. cbn [Nat.eqb].
  apply fromhex_hexlify, bytes_of_N_small.
Qed.

Lemma ObjectId_str_inj (n1 n2 : N) :
  (n1 < 2 ^ 96)%N -> (n2 < 2 ^ 96)%N ->
  ObjectId_str (ObjectId_of_N n1) = ObjectId_str (ObjectId_of_N n2) -> n1 = n2.
Proof.
  intros H1 H2 E. apply ObjectId_of_N_inj; try assumption.
  pose proof (ObjectId_parse_str n1) as P1. rewrite E, ObjectId_parse_str in P1.
  congruence.
Qed.

(** [fromhex] reads exactly the strings of the grammar. *)
Lemma fromhex_hex_bytes (s : string) (bs : list N) :
  fromhex s = Some bs <-> hex_bytes s bs.
Proof.
  split.
  - remember (String.length s) as n eqn:Hn.
    assert (Hle : String.length s <= n) by lia. clear Hn.
    revert s bs Hle. induction n as [|n IH]; intros s bs Hle.
    + destruct s; simpl in Hle; [|lia]. intros [= <-]. constructor.
    + destruct s as [|c s]; [intros [= <-]; constructor|].
      cbn [fromhex]. simpl in Hle. destruct (is_space c) eqn:Hc.
      * intros H. apply hex_bytes_space; [exact Hc|]. apply IH; [lia|exact H].
      * destruct (hex_value c) as [hi|] eqn:Hhi; [|discriminate].
        destruct s as [|c' s]; [discriminate|].
        destruct (hex_value c') as [lo|] eqn:Hlo; [|discriminate].
        destruct (fromhex s) as [bs'|] eqn:Hs; [|discriminate].
        intros [= <-]. apply hex_bytes_byte; try assumption.
        apply IH; [simpl in Hle; lia|exact Hs].
  - induction 1 as [|c s bs Hc _ IH|c1 c2 hi lo s bs H1 H2 _ IH].
    + reflexivity.
    + cbn [fromhex]. rewrite Hc. exact IH.
    + cbn [fromhex]. rewrite (hex_not_space _ _ H1), H1, H2, IH. reflexivity.
Qed.

Lemma hex_bytes_length (s : string) (bs : list N) :
  hex_bytes s bs ->
  2 * length bs <= String.length s
  /\ Forall (fun b => (b < 256)%N) bs
  /\ (String.length s = 2 * length bs -> all_chars is_hex_digit s = true).
Proof.
  induction 1 as [|c s bs Hc _ (IH1 & IH2 & IH3)
                  |c1 c2 hi lo s bs H1 H2 _ (IH1 & IH2 & IH3)]; simpl.
  - split; [lia|]. split; [constructor|reflexivity].
  - split; [lia|]. split; [exact IH2|]. intros E. exfalso. lia.
  - split; [lia|]. split.
    + constructor; [|exact IH2].
      apply hex_value_bound in H1, H2. lia.
    + intros E. unfold is_hex_digit at 1 2. rewrite H1, H2. simpl.
      apply IH3. lia.
Qed.

Lemma fromhex_digits (n : nat) (s : string) :
  String.length s = 2 * n -> all_chars is_hex_digit s = true ->
  exists bs, fromhex s = Some bs /\ length bs = n.
Proof.
  revert s. induction n as [|n IH]; intros s Hlen Hall.
  - destruct s; [|discriminate]. exists []. split; reflexivity.
  - destruct s as [|c1 [|c2 s]]; simpl in Hlen; try lia.
    cbn [all_chars] in Hall.
    apply andb_true_iff in Hall as [Hc1 Hall].
    apply andb_true_iff in Hall as [Hc2 Hall].
    unfold is_hex_digit in Hc1, Hc2.
    destruct (hex_value c1) as [hi|] eqn:H1; [|discriminate].
    destruct (hex_value c2) as [lo|] eqn:H2; [|discriminate].
    destruct (IH s) as (bs & Hbs & Hn); [lia|exact Hall|].
    exists ((16 * hi + lo)%N :: bs). cbn [fromhex].
    rewrite (hex_not_space _ _ H1), H1, H2, Hbs. simpl. split; [reflexivity|].
    rewrite Hn. reflexivity.
Qed.

(** What [ObjectId(str)] accepts: the 24-character strings of the
    grammar.  The identifier has at most twelve bytes, and exactly
    twelve when the string is made of 24 hexadecimal digits. *)
Lemma ObjectId_parse_accepts (s : string) (o : ObjectId) :
  ObjectId_parse s = Some o <-> String.length s = 24 /\ hex_bytes s o.
Proof.
  unfold ObjectId_parse. destruct (Nat.eqb_spec (String.length s) 24) as [E|E].
  - rewrite fromhex_hex_bytes. tauto.
  - split; [discriminate|tauto].
Qed.

Lemma ObjectId_parse_bytes (s : string) (o : ObjectId) :
  ObjectId_parse s = Some o ->
  length o <= 12
  /\ Forall (fun b => (b < 256)%N) o
  /\ (length o = 12 <-> hex_digits_24 s = true).
Proof.
  intros H. pose proof H as H'. apply ObjectId_parse_accepts in H as [Hlen Hg].
  destruct (hex_bytes_length _ _ Hg) as (H1 & H2 & H3).
  split; [lia|]. split; [exact H2|]. unfold hex_digits_24. rewrite Hlen. simpl.
  split.
  - intros E. apply H3. lia.
  - intros Hall. destruct (fromhex_digits 12 s Hlen Hall) as (bs & Hbs & Hn).
    unfold ObjectId_parse in H'. rewrite Hlen in H'. simpl in H'. congruence.
Qed.

Lemma ObjectId_parse_digits (s : string) :
  hex_digits_24 s = true ->
  exists o, ObjectId_parse s = Some o /\ length o = 12.
Proof.
  unfold hex_digits_24. intros H. apply andb_true_iff in H as [Hlen Hall].
  apply Nat.eqb_eq in Hlen. unfold ObjectId_parse. rewrite Hlen. simpl.
  apply (fromhex_digits 12); assumption.
Qed.
(** ** Freshness of a generated identifier *)

Section StoreIds.

Context {RT : Runtime}.

Lemma find_id_fresh (next : N) (l : list doc) :
  coll_ok next l -> (next < 2 ^ 96)%N ->
  List.find (matches [Field "_id" (CEq (VObjectId (ObjectId_of_N next)))]) l = None.
Proof.
  intros [H _] Hnext. apply find_none_iff. intros x Hx. apply matches_id_false.
  rewrite Forall_forall in H. destruct (H x) as (n & Hn & Hlt).
  - apply list_elem_of_In, Hx.
  - rewrite Hn. intros E.
    assert (E' : ObjectId_of_N n = ObjectId_of_N next) by congruence.
    apply ObjectId_of_N_inj in E'; lia.
Qed.

End StoreIds.

Lemma stored_lookup_id (o : ObjectId) (x : doc) :
  stored o x !! "_id" = Some (VObjectId o).
Proof. unfold stored. rewrite lookup_fmap, lookup_insert_eq. reflexivity. Qed.

Lemma stored_lookup_ne (o : ObjectId) (x : doc) (k : string) :
  k <> "_id" -> stored o x !! k = bson_value <$> x !! k.
Proof.
  intros H. unfold stored. rewrite lookup_fmap, lookup_insert_ne by congruence.
  reflexivity.
Qed.

Lemma stored_keys (o : ObjectId) (x : doc) (k : string) :
  is_Some (stored o x !! k) <-> k = "_id" \/ is_Some (x !! k).
Proof.
  destruct (decide (k = "_id")) as [->|H].
  - rewrite stored_lookup_id. split; eauto.
  - rewrite stored_lookup_ne by exact H. rewrite fmap_is_Some. tauto.
Qed.


(** ** Create *)

Lemma lookup_list_to_map_filter (p : value -> bool) (l : list (string * value))
    (k : string) :
  NoDup l.*1 ->
  (list_to_map (List.filter (fun kv => p kv.2) l) : doc) !! k
  = match (list_to_map l : doc) !! k with
    | Some v => if p v then Some v else None
    | None => None
    end.
Proof.
  induction l as [|[k' v'] l IH]; simpl; [rewrite lookup_empty; reflexivity|].
  intros Hnd. apply NoDup_cons in Hnd as [Hk' Hnd].
  destruct (decide (k' = k)) as [->|Hne].
  - rewrite lookup_insert_eq. destruct (p v') eqn:E; simpl.
    + rewrite lookup_insert_eq. reflexivity.
    + rewrite (IH Hnd).
      rewrite (not_elem_of_list_to_map_1 (M := gmap string) _ _ Hk'). reflexivity.
  - rewrite lookup_insert_ne by exact Hne. destruct (p v'); simpl.
    + rewrite lookup_insert_ne by exact Hne. exact (IH Hnd).
    + exact (IH Hnd).
Qed.

Lemma model_dump_keys (payload : CreateItemRequest) : NoDup (model_dump payload).*1.
Proof. apply (bool_decide_unpack _). vm_compute. exact I. Qed.

Lemma is_not_None_true (v : value) : is_not_None v = true <-> v <> VNone.
Proof. destruct v; simpl; split; congruence. Qed.

(** The fields of the request model that [create_item] keeps. *)
Lemma create_item_doc_lookup (payload : CreateItemRequest) (now1 now2 : datetime)
    (k : string) (v : value) :
  create_item_doc payload now1 now2 !! k = Some v
  <-> (In (k, v) (model_dump payload) /\ v <> VNone)
      \/ (k = "created_at" /\ v = VDatetime now1)
      \/ (k = "updated_at" /\ v = VDatetime now2).
Proof.
  assert (Hstamp : forall s, In s ["created_at"; "updated_at"] ->
                     ~ In (s, v) (model_dump payload)).
  { intros s Hs Hin. apply (in_map fst) in Hin. simpl in Hin, Hs.
    repeat destruct Hs as [<-|Hs]; try contradiction;
      repeat destruct Hin as [Hin|Hin]; try discriminate; contradiction. }
  unfold create_item_doc.
  destruct (decide (k = "updated_at")) as [->|H2].
  { rewrite lookup_insert_eq. split.
    - intros [= <-]. auto.
    - intros [[Hin _]|[[? _]|[_ ->]]]; try discriminate; [|reflexivity].
      exfalso. apply (Hstamp "updated_at"); simpl; auto. }
  rewrite lookup_insert_ne by congruence.
  destruct (decide (k = "created_at")) as [->|H1].
  { rewrite lookup_insert_eq. split.
    - intros [= <-]. auto.
    - intros [[Hin _]|[[_ ->]|[? _]]]; try discriminate; [|reflexivity].
      exfalso. apply (Hstamp "created_at"); simpl; auto. }
  rewrite lookup_insert_ne by congruence.
  rewrite lookup_list_to_map_filter by apply model_dump_keys.
  assert (Hmap : forall w, In (k, w) (model_dump payload)
                    <-> (list_to_map (model_dump payload) : doc) !! k = Some w).
  { intros w. rewrite <- list_elem_of_In.
    apply (elem_of_list_to_map (M := gmap string)), model_dump_keys. }
  split.
  - destruct (list_to_map (model_dump payload) !! k) as [w|] eqn:E; [|discriminate].
    destruct (is_not_None w) eqn:Ew; [|discriminate]. intros [= <-].
    left. split; [apply Hmap; reflexivity | apply is_not_None_true, Ew].
  - intros [[Hin Hv]|[[? _]|[? _]]]; try contradiction.
    apply Hmap in Hin. rewrite Hin.
    apply is_not_None_true in Hv. rewrite Hv. reflexivity.
Qed.


Section Create.

Context {RT : Runtime}.

Lemma insert_then_find (d : database) (c : string) (x : doc) :
  db_ok d ->
  List.find (matches [Field "_id" (CEq (VObjectId (new_oid d)))])
    (coll d c ++ [stored (new_oid d) x])
  = Some (stored (new_oid d) x).
Proof.
  intros Hok. unfold new_oid at 1.
  rewrite find_app_none by (apply find_id_fresh; [apply db_ok_coll, Hok|apply Hok]).
  cbn [List.find].
  replace (matches _ (stored (new_oid d) x)) with true; [reflexivity|].
  symmetry. apply matches_id, doc_oid_lookup, stored_lookup_id.
Qed.

Lemma coll_inserted (d : database) (c : string) (x : doc) :
  coll (inserted d c x) c = (coll d c ++ [stored (new_oid d) x])%list.
Proof. unfold coll at 1, inserted. cbn [collections]. rewrite lookup_insert_eq. reflexivity. Qed.

Lemma coll_inserted_ne (d : database) (c c' : string) (x : doc) :
  c <> c' -> coll (inserted d c x) c' = coll d c'.
Proof.
  intros H. unfold coll, inserted. cbn [collections].
  rewrite lookup_insert_ne by exact H. reflexivity.
Qed.

(** What [create_item] does on a configured store, step by step. *)
Lemma create_item_run (d : database) (endpoint c : string)
    (payload : CreateItemRequest) (now1 now2 : datetime) :
  ALLOWED_COLLECTIONS !! endpoint = Some c ->
  create_item endpoint payload now1 now2 (Some d)
  = (inr (serialize
            (List.find (matches [Field "_id" (CEq (VObjectId (new_oid d)))])
               (coll (inserted d c (create_item_doc payload now1 now2)) c))),
     Some (inserted d c (create_item_doc payload now1 now2))).
Proof. intros Hc. unfold create_item. rewrite Hc. reflexivity. Qed.


(** C10: the dictionary [create_item] builds has its keys among the fields
    of the request model, [created_at] and [updated_at]; it always has
    [title], [created_at] and [updated_at]; it is what the store appends
    to the collection, with the same keys and the generated [_id]. *)
Theorem create_item_keys (d : database) (endpoint c : string)
    (payload : CreateItemRequest) (now1 now2 : datetime) :
  ALLOWED_COLLECTIONS !! endpoint = Some c ->
  let document := create_item_doc payload now1 now2 in
  (forall k, is_Some (document !! k) ->
     In k (request_model_keys ++ ["created_at"; "updated_at"]))
  /\ document !! "title" = Some (VStr (title payload))
  /\ document !! "created_at" = Some (VDatetime now1)
  /\ document !! "updated_at" = Some (VDatetime now2)
  /\ snd (create_item endpoint payload now1 now2 (Some d))
     = Some (inserted d c document)
  /\ coll (inserted d c document) c
     = (coll d c ++ [stored (new_oid d) document])%list
  /\ (forall k, is_Some (stored (new_oid d) document !! k)
        <-> k = "_id" \/ is_Some (document !! k))
  /\ stored (new_oid d) document !! "title" = Some (VStr (title payload)).
Proof.
  intros Hc document.
  assert (Ht : document !! "title" = Some (VStr (title payload))).
  { apply create_item_doc_lookup. left. split; [simpl; auto|discriminate]. }
  split; [|split; [|split; [|split; [|split; [|split; [|split]]]]]].
  - intros k [v Hv]. apply create_item_doc_lookup in Hv.
    destruct Hv as [[Hin _]|[[-> _]|[-> _]]].
    + apply in_or_app. left. apply (in_map fst) in Hin. exact Hin.
    + apply in_or_app. right. simpl. auto.
    + apply in_or_app. right. simpl. auto.
  - exact Ht.
  - apply create_item_doc_lookup. auto.
  - apply create_item_doc_lookup. auto.
  - rewrite (create_item_run d endpoint c) by exact Hc. reflexivity.
  - apply coll_inserted.
  - intros k. apply stored_keys.
  - rewrite stored_lookup_ne by discriminate. rewrite Ht. reflexivity.
Qed.

End Create.
(** ** Delete *)






Lemma doc_oid_stored (o : ObjectId) (x : doc) : doc_oid (stored o x) = Some o.
Proof. apply doc_oid_lookup, stored_lookup_id. Qed.

Lemma coll_ok_inserted (d : database) (c : string) (x : doc) :
  db_ok d ->
  coll_ok (N.succ (next_oid d)) (coll d c ++ [stored (new_oid d) x]).
Proof.
  intros Hok. destruct (db_ok_coll d c Hok) as [HF HN].
  pose proof (proj1 Hok) as Hlt. split.
  - apply Forall_app. split.
    + eapply Forall_impl; [exact HF|]. intros y (n & Hn & Hy).
      exists n. split; [exact Hn|lia].
    + constructor; [|constructor]. exists (next_oid d).
      split; [apply doc_oid_stored|lia].
  - rewrite map_app. cbn [map]. rewrite doc_oid_stored.
    apply NoDup_app. repeat split; [exact HN| |repeat constructor; set_solver].
    intros o Ho Hin. apply list_elem_of_In in Ho.
    apply in_map_iff in Ho as (y & Hy & Hin').
    rewrite Forall_forall in HF. destruct (HF y) as (n & Hn & Hlt').
    { apply list_elem_of_In, Hin'. }
    apply list_elem_of_In in Hin. simpl in Hin. destruct Hin as [<-|[]].
    rewrite Hy in Hn.
    assert (E : ObjectId_of_N (next_oid d) = ObjectId_of_N n) by (unfold new_oid in Hn; congruence).
    apply ObjectId_of_N_inj in E; lia.
Qed.

Lemma db_ok_inserted (d : database) (c : string) (x : doc) :
  db_ok d -> (N.succ (next_oid d) < 2 ^ 96)%N -> db_ok (inserted d c x).
Proof.
  intros Hok Hlt.
  split; [exact Hlt|]. intros c' l'. unfold inserted. cbn.
  destruct (decide (c = c')) as [->|Hne].
  - rewrite lookup_insert_eq. intros [= <-]. apply coll_ok_inserted, Hok.
  - rewrite lookup_insert_ne by exact Hne. intros H.
    destruct Hok as [_ Hok]. destruct (Hok c' l' H) as [HF HN].
    split; [|exact HN].
    eapply Forall_impl; [exact HF|]. intros y (n & Hn & Hy).
    exists n. split; [exact Hn|lia].
Qed.


Section Delete.

Context {RT : Runtime}.

(** What [delete_item] does on a configured store, step by step. *)
Lemma delete_item_run (d : database) (endpoint c item_id : string) :
  ALLOWED_COLLECTIONS !! endpoint = Some c ->
  delete_item endpoint item_id (Some d)
  = match ObjectId_parse item_id with
    | None => (inl (HTTPException 400 "Invalid id format"), Some d)
    | Some o =>
        match remove_first (matches [Field "_id" (CEq (VObjectId o))]) (coll d c) with
        | Some l' => (inr {| success := true |}, Some (replaced d c l'))
        | None => (inl (HTTPException 404 "Item not found"), Some d)
        end
    end.
Proof.
  intros Hc. unfold delete_item, oid. rewrite Hc.
  destruct (ObjectId_parse item_id) as [o|]; [|reflexivity].
  unfold bind, db_is_None, delete_one, with_db.
  destruct (remove_first _ (coll d c)); reflexivity.
Qed.



(** The serialized record shows its ObjectId under [id]. *)
Lemma serialized_id (x : doc) (o : ObjectId) :
  x !! "_id" = Some (VObjectId o) ->
  (render <$> rename_id x) !! "id" = Some (VStr (ObjectId_str o)).
Proof.
  intros H. rewrite lookup_fmap. unfold rename_id. rewrite H.
  rewrite lookup_insert_eq. reflexivity.
Qed.





End Delete.
(** ** Auth *)

Lemma trunc_ms_add_days (t : datetime) :
  trunc_ms (t + timedelta_days 7)%Z = (trunc_ms t + 7 * 24 * 3600 * 1000000)%Z.
Proof.
  unfold trunc_ms, timedelta_days, us_per_day, us_per_second.
  replace (t + 7 * (86400 * 1000000))%Z with (t + 604800000 * 1000)%Z by lia.
  rewrite Z.mod_add by discriminate. lia.
Qed.

Section Auth.

Context {RT : Runtime}.

Lemma match_eq_str (u : doc) (k s : string) :
  match_cond (CEq (VStr s)) (u !! k) = true <-> u !! k = Some (VStr s).
Proof.
  destruct (u !! k) as [v|]; simpl.
  - rewrite value_eqb_str. split; congruence.
  - split; discriminate.
Qed.

Lemma matches_signup_query (student_id email : string) (u : doc) :
  matches (signup_query student_id email) u = true
  <-> same_account student_id email u.
Proof.
  unfold same_account. rewrite <- !match_eq_str.
  unfold signup_query, matches.
  cbn [forallb match_clause existsb match_fields fst snd].
  destruct (match_cond (CEq (VStr student_id)) (u !! "student_id")),
           (match_cond (CEq (VStr email)) (u !! "email"));
    simpl; intuition congruence.
Qed.

Lemma matches_login_query (identifier : string) (u : doc) :
  matches (login_query identifier) u = true <-> identified_by identifier u.
Proof.
  unfold identified_by. rewrite <- !match_eq_str.
  unfold login_query, matches.
  cbn [forallb match_clause existsb match_fields fst snd].
  destruct (match_cond (CEq (VStr identifier)) (u !! "email")),
           (match_cond (CEq (VStr identifier)) (u !! "student_id"));
    simpl; intuition congruence.
Qed.

Lemma truthy_doc_lookup (u : doc) (k : string) (v : value) :
  u !! k = Some v -> truthy_doc (Some u) = true.
Proof.
  intros H. simpl. destruct (Nat.eqb_spec (size u) 0) as [E|]; [|reflexivity].
  apply map_size_empty_iff in E. subst u. rewrite lookup_empty in H. discriminate.
Qed.

Lemma find_some_iff (p : doc -> bool) (l : list doc) :
  (exists u, List.find p l = Some u) <-> exists u, In u l /\ p u = true.
Proof.
  split.
  - intros [u H]. exists u. exact (List.find_some _ _ H).
  - intros (u & Hin & Hp). destruct (List.find p l) eqn:E; [eauto|].
    rewrite (List.find_none _ _ E u Hin) in Hp. discriminate.
Qed.

(** What [signup] does on a configured store, step by step. *)
Lemma signup_run (d : database) (payload : SignupRequest.t)
    (now1 now2 : datetime) :
  signup payload now1 now2 (Some d)
  = match List.find (matches (signup_query (SignupRequest.student_id payload)
                                (SignupRequest.email payload)))
            (coll d "user") with
    | Some _ => (inl (HTTPException 400 "Account already exists"), Some d)
    | None =>
        (inr {| id := ObjectId_str (new_oid d); message := "Signup successful" |},
         Some (inserted d "user" (signup_doc payload now1 now2)))
    end.
Proof.
  unfold signup, bind, db_is_None, find_one, with_db.
  change (query_valid (signup_query _ _)) with true. cbv iota.
  destruct (List.find _ (coll d "user")) as [u|] eqn:E; [|reflexivity].
  apply List.find_some in E as [_ E]. apply matches_signup_query in E.
  destruct E as [E|E]; rewrite (truthy_doc_lookup u _ _ E); reflexivity.
Qed.

(** C5: [signup] answers 400 "Account already exists" exactly when some
    user has the requested student id or the requested email, and then
    leaves the store as it was; otherwise it appends to the users a
    document that holds the hash of the password and answers with the new
    id. *)
Theorem signup_spec (d : database) (payload : SignupRequest.t)
    (now1 now2 : datetime) :
  let r := signup payload now1 now2 (Some d) in
  let taken := account_taken d (SignupRequest.student_id payload)
                 (SignupRequest.email payload) in
  (taken <-> fst r = inl (HTTPException 400 "Account already exists"))
  /\ (taken -> r = (inl (HTTPException 400 "Account already exists"), Some d))
  /\ (~ taken ->
      r = (inr {| id := ObjectId_str (new_oid d);
                  message := "Signup successful" |},
           Some (inserted d "user" (signup_doc payload now1 now2))))
  /\ signup_doc payload now1 now2 !! "password_hash"
     = Some (VStr (hash_password (SignupRequest.password payload)))
  /\ signup_doc payload now1 now2 !! "student_id"
     = Some (VStr (SignupRequest.student_id payload))
  /\ signup_doc payload now1 now2 !! "email"
     = Some (VStr (SignupRequest.email payload)).
Proof.
  intros r taken. unfold r. rewrite signup_run.
  assert (Hiff : taken <-> exists u,
             List.find (matches (signup_query (SignupRequest.student_id payload)
                                   (SignupRequest.email payload)))
               (coll d "user") = Some u).
  { rewrite find_some_iff. unfold taken, account_taken.
    split; intros (u & Hin & Hu); exists u; (split; [exact Hin|]);
      apply matches_signup_query; exact Hu. }
  destruct (List.find _ (coll d "user")) as [u|].
  - assert (taken) by (apply Hiff; eauto).
    repeat split; try reflexivity; tauto.
  - assert (~ taken) by (rewrite Hiff; intros [u Hu]; discriminate).
    repeat split; try reflexivity; try tauto; discriminate.
Qed.

Lemma get_is_str (u : doc) (k s : string) :
  value_eqb (get u k) (VStr s) = true <-> u !! k = Some (VStr s).
Proof.
  rewrite value_eqb_str. unfold get.
  destruct (u !! k) as [v|]; simpl; split; congruence.
Qed.

(** What [login] does on a configured store, step by step. *)
Lemma login_run (d : database) (payload : LoginRequest.t) (uuid : string)
    (now1 now2 : datetime) :
  login payload uuid now1 now2 (Some d)
  = match List.find (matches (login_query (LoginRequest.identifier payload)))
            (coll d "user") with
    | Some u =>
        if value_eqb (get u "password_hash")
             (VStr (hash_password (LoginRequest.password payload)))
        then (inr {| token := uuid; user := serialize (Some u) |},
              Some (inserted d "session" (session_doc u uuid now1 now2)))
        else (inl (HTTPException 401 "Invalid credentials"), Some d)
    | None => (inl (HTTPException 401 "Invalid credentials"), Some d)
    end.
Proof.
  unfold login, bind, db_is_None, find_one, with_db.
  change (query_valid (login_query _)) with true. cbv iota.
  destruct (List.find _ (coll d "user")) as [u|] eqn:E; [|reflexivity].
  apply List.find_some in E as [_ E]. apply matches_login_query in E.
  assert (Ht : truthy_doc (Some u) = true)
    by (destruct E as [E|E]; exact (truthy_doc_lookup u _ _ E)).
  cbv beta iota. rewrite Ht.
  destruct (value_eqb (get u "password_hash") _); reflexivity.
Qed.

(** C6: the user [login] checks is the first one, in the order of the
    store, whose email or student id is the identifier.  [login] answers
    401 exactly when there is none or when its [password_hash] is not the
    hash of the supplied password, and then creates no session.
    Otherwise it appends a session that refers to the user's id and
    expires seven days after the second clock reading (the store keeps
    both to the millisecond), and answers with the token and the
    serialized user, [password_hash] included. *)
Theorem login_spec (d : database) (payload : LoginRequest.t) (uuid : string)
    (now1 now2 : datetime) :
  let r := login payload uuid now1 now2 (Some d) in
  let identifier := LoginRequest.identifier payload in
  let hash := hash_password (LoginRequest.password payload) in
  let matched := List.find (matches (login_query identifier)) (coll d "user") in
  (matched = None
   <-> forall u, In u (coll d "user") -> ~ identified_by identifier u)
  /\ (forall u, matched = Some u ->
        In u (coll d "user") /\ identified_by identifier u)
  /\ ((matched = None
       \/ exists u, matched = Some u /\ u !! "password_hash" <> Some (VStr hash))
      <-> fst r = inl (HTTPException 401 "Invalid credentials"))
  /\ (fst r = inl (HTTPException 401 "Invalid credentials") -> snd r = Some d)
  /\ (forall u, matched = Some u -> u !! "password_hash" = Some (VStr hash) ->
        let session := session_doc u uuid now1 now2 in
        r = (inr {| token := uuid; user := serialize (Some u) |},
             Some (inserted d "session" session))
        /\ coll (inserted d "session" session) "session"
           = (coll d "session" ++ [stored (new_oid d) session])%list
        /\ coll (inserted d "session" session) "user" = coll d "user"
        /\ session !! "token" = Some (VStr uuid)
        /\ session !! "created_at" = Some (VDatetime now1)
        /\ session !! "expires_at"
           = Some (VDatetime (now2 + 7 * 24 * 3600 * 1000000)%Z)
        /\ session !! "user_id" = Some (VStr (py_str (get u "_id")))
        /\ (forall o, u !! "_id" = Some (VObjectId o) ->
              session !! "user_id" = Some (VStr (ObjectId_str o)))
        /\ stored (new_oid d) session !! "user_id"
           = Some (VStr (py_str (get u "_id")))
        /\ stored (new_oid d) session !! "token" = Some (VStr uuid)
        /\ stored (new_oid d) session !! "created_at"
           = Some (VDatetime (trunc_ms now1))
        /\ stored (new_oid d) session !! "expires_at"
           = Some (VDatetime (trunc_ms now2 + 7 * 24 * 3600 * 1000000)%Z)
        /\ exists w, serialize (Some u) = Some w
                     /\ w !! "password_hash" = Some (VStr hash)).
Proof.
  intros r identifier hash matched. unfold r. rewrite login_run.
  fold identifier. fold hash. fold matched.
  split; [|split; [|split; [|split]]].
  - unfold matched. rewrite find_none_iff. split; intros H u Hu.
    + intros Hid. apply matches_login_query in Hid. rewrite (H u Hu) in Hid.
      discriminate.
    + destruct (matches (login_query identifier) u) eqn:E; [|reflexivity].
      apply matches_login_query in E. destruct (H u Hu E).
  - intros u Hu. apply List.find_some in Hu as [Hin Hu].
    split; [exact Hin|]. apply matches_login_query, Hu.
  - destruct matched as [u|].
    + pose proof (get_is_str u "password_hash" hash) as Hg.
      destruct (value_eqb (get u "password_hash") (VStr hash)); simpl; split.
      * intros [?|(u' & [= <-] & Hne)]; [discriminate|]. destruct Hne. apply Hg. reflexivity.
      * discriminate.
      * reflexivity.
      * intros _. right. exists u. split; [reflexivity|]. intros Hp.
        apply Hg in Hp. discriminate.
    + split; [reflexivity|]. intros _. left. reflexivity.
  - destruct matched as [u|]; [|reflexivity].
    destruct (value_eqb (get u "password_hash") (VStr hash)); [discriminate|reflexivity].
  - intros u Hm Hp. unfold matched in Hm |- *. rewrite Hm.
    apply get_is_str in Hp as Hg. rewrite Hg.
    split; [reflexivity|]. split; [apply coll_inserted|].
    split; [apply coll_inserted_ne; discriminate|].
    split; [reflexivity|]. split; [reflexivity|]. split; [reflexivity|].
    split; [reflexivity|]. split.
    { intros o Ho. unfold session_doc, get. rewrite Ho. reflexivity. }
    split; [rewrite stored_lookup_ne by discriminate; reflexivity|].
    split; [rewrite stored_lookup_ne by discriminate; reflexivity|].
    split; [rewrite stored_lookup_ne by discriminate; reflexivity|].
    split.
    { rewrite stored_lookup_ne by discriminate.
      change (session_doc u uuid now1 now2 !! "expires_at")
        with (Some (VDatetime (now2 + timedelta_days 7)%Z)).
      simpl. do 2 f_equal. apply trunc_ms_add_days. }
    + eexists. split; [reflexivity|].
      rewrite lookup_fmap, rename_id_other, Hp by discriminate. reflexivity.
Qed.

End Auth.

(** ** The collection registry *)

Lemma allowed_registered (endpoint c : string) :
  ALLOWED_COLLECTIONS !! endpoint = Some c -> registered c.
Proof.
  intros H. apply allowed_endpoint in H. unfold registered. simpl in H |- *.
  repeat destruct H as [H|H]; try contradiction; inversion H; subst; auto 10.
Qed.

Lemma allowed_none_iff (endpoint : string) :
  ALLOWED_COLLECTIONS !! endpoint = None <-> ~ In endpoint endpoint_names.
Proof.
  split.
  - intros H Hin. unfold endpoint_names in Hin. simpl in Hin.
    repeat destruct Hin as [<-|Hin]; try contradiction; discriminate H.
  - intros H. destruct (ALLOWED_COLLECTIONS !! endpoint) as [c|] eqn:E; [|reflexivity].
    exfalso. apply H. apply allowed_endpoint in E. unfold endpoint_names.
    simpl in E |- *.
    repeat destruct E as [E|E]; try contradiction; inversion E; subst; auto 10.
Qed.

Section Registry.

Context {RT : Runtime}.

(** Each explicit list handler reads one registered collection. *)
Lemma explicit_list_cases (c : string) (q location subject : option string)
    (h : M (list (option doc))) :
  In (c, h) (explicit_list_calls q location subject) ->
  exists f key direction,
    registered c
    /\ forall d : database,
         h (Some d)
         = if query_valid f
           then (inr (map (fun x => serialize (Some x))
                        (sort_docs (sort_le key direction)
                           (List.filter (matches f) (coll d c)))),
                 Some d)
           else (inl OperationFailure, Some d).
Proof.
  intros Hin. simpl in Hin.
  repeat destruct Hin as [Hin|Hin]; try contradiction; inversion Hin; subst;
    unfold list_beacons, list_resources, list_tutors, list_clubs, list_events,
      list_lostfound, list_market, bind, find_sort, with_db, ret;
    match goal with |- context [query_valid ?f] =>
      match goal with |- context [sort_le ?key ?direction] =>
        exists f, key, direction;
        split; [unfold registered; simpl; auto 10|];
        intros d; destruct (query_valid f); reflexivity
      end
    end.
Qed.

(** The routes of the list handlers are the seven endpoint paths. *)
Lemma list_routes_are_endpoints (r : route) :
  In r routes ->
  In (route_handler r) (H_list_items :: explicit_list_handlers) ->
  exists endpoint, In endpoint endpoint_names /\ route_path r = [Lit endpoint].
Proof.
  intros Hr Hh. unfold routes in Hr. simpl in Hr.
  repeat destruct Hr as [<-|Hr]; try contradiction;
    simpl in Hh; repeat destruct Hh as [Hh|Hh]; try discriminate;
    try contradiction;
    eexists; (split; [|reflexivity]); simpl; auto 10.
Qed.

(** C7: an endpoint name outside the seven makes [create_item] and
    [delete_item] answer 404 and leave the store as it is, and no list
    handler is routed on it.  Whatever the endpoint and the request,
    [create_item], [delete_item] and the list handlers change no
    collection outside the seven registered ones, [user] and [session]
    among them, and their answers do not depend on what those other
    collections hold. *)
Theorem registry_is_the_boundary :
  (forall endpoint,
     ALLOWED_COLLECTIONS !! endpoint = None <-> ~ In endpoint endpoint_names)
  /\ (forall endpoint c, ALLOWED_COLLECTIONS !! endpoint = Some c -> registered c)
  /\ ~ registered "user"
  /\ ~ registered "session"
  /\ (forall endpoint payload now1 now2 item_id (w : option database),
        ~ In endpoint endpoint_names ->
        create_item endpoint payload now1 now2 w
        = (inl (HTTPException 404 "Unknown endpoint"), w)
        /\ delete_item endpoint item_id w
           = (inl (HTTPException 404 "Unknown endpoint"), w)
        /\ forall r, In r routes -> route_path r = [Lit endpoint] ->
             ~ In (route_handler r) (H_list_items :: explicit_list_handlers))
  /\ (forall endpoint payload now1 now2 item_id (d d' : database) c,
        ~ registered c ->
        (snd (create_item endpoint payload now1 now2 (Some d)) = Some d' ->
         collections d' !! c = collections d !! c)
        /\ (snd (delete_item endpoint item_id (Some d)) = Some d' ->
            collections d' !! c = collections d !! c))
  /\ (forall q location subject (d : database),
        snd (list_items q location subject (Some d)) = Some d
        /\ forall c h, In (c, h) (explicit_list_calls q location subject) ->
             registered c /\ snd (h (Some d)) = Some d)
  /\ (forall endpoint payload now1 now2 item_id q location subject
             (d1 d2 : database),
        next_oid d1 = next_oid d2 ->
        (forall c, registered c -> coll d1 c = coll d2 c) ->
        fst (create_item endpoint payload now1 now2 (Some d1))
        = fst (create_item endpoint payload now1 now2 (Some d2))
        /\ fst (delete_item endpoint item_id (Some d1))
           = fst (delete_item endpoint item_id (Some d2))
        /\ fst (list_items q location subject (Some d1))
           = fst (list_items q location subject (Some d2))
        /\ forall c h, In (c, h) (explicit_list_calls q location subject) ->
                       fst (h (Some d1)) = fst (h (Some d2))).
Proof.
  assert (Huser : ~ registered "user")
    by (unfold registered; simpl; intros H;
        repeat destruct H as [H|H]; try discriminate; contradiction).
  assert (Hsession : ~ registered "session")
    by (unfold registered; simpl; intros H;
        repeat destruct H as [H|H]; try discriminate; contradiction).
  split; [exact allowed_none_iff|]. split; [exact allowed_registered|].
  split; [exact Huser|]. split; [exact Hsession|].
  split; [|split; [|split]].
  - intros endpoint payload now1 now2 item_id w Hno.
    pose proof (proj2 (allowed_none_iff endpoint) Hno) as Hnone.
    unfold create_item, delete_item. rewrite Hnone.
    split; [reflexivity|]. split; [reflexivity|].
    intros r Hr Hpath Hh.
    destruct (list_routes_are_endpoints r Hr Hh) as (e & He & Hp).
    rewrite Hp in Hpath. inversion Hpath. subst e. exact (Hno He).
  - intros endpoint payload now1 now2 item_id d d' c Hc.
    destruct (ALLOWED_COLLECTIONS !! endpoint) as [c0|] eqn:E.
    + assert (Hne : c0 <> c) by (intros ->; apply Hc, (allowed_registered _ _ E)).
      rewrite (create_item_run d endpoint c0) by exact E.
      rewrite (delete_item_run d endpoint c0) by exact E.
      split.
      * intros [= <-]. unfold inserted. cbn. apply lookup_insert_ne, Hne.
      * destruct (ObjectId_parse item_id); [|intros [= <-]; reflexivity].
        destruct (remove_first _ (coll d c0)); intros [= <-]; [|reflexivity].
        unfold replaced. cbn. apply lookup_insert_ne, Hne.
    + unfold create_item, delete_item. rewrite E.
      split; intros [= <-]; reflexivity.
  - intros q location subject d. split; [reflexivity|]. intros c h Hh.
    apply explicit_list_cases in Hh as (f & key & dir & Hc & Hrun).
    split; [exact Hc|]. rewrite Hrun. destruct (query_valid f); reflexivity.
  - intros endpoint payload now1 now2 item_id q location subject d1 d2 Hn Hagree.
    split; [|split; [|split]].
    + destruct (ALLOWED_COLLECTIONS !! endpoint) as [c0|] eqn:E.
      * rewrite !(create_item_run _ endpoint c0) by exact E.
        rewrite !coll_inserted. unfold new_oid.
        rewrite Hn, (Hagree c0 (allowed_registered _ _ E)).
        reflexivity.
      * unfold create_item. rewrite E. reflexivity.
    + destruct (ALLOWED_COLLECTIONS !! endpoint) as [c0|] eqn:E.
      * rewrite !(delete_item_run _ endpoint c0) by exact E.
        rewrite (Hagree c0 (allowed_registered _ _ E)).
        destruct (ObjectId_parse item_id); [|reflexivity].
        destruct (remove_first _ (coll d2 c0)); reflexivity.
      * unfold delete_item. rewrite E. reflexivity.
    + reflexivity.
    + intros c h Hh.
      apply explicit_list_cases in Hh as (f & key & dir & Hc & Hrun).
      rewrite !Hrun, (Hagree c Hc). destruct (query_valid f); reflexivity.
Qed.

End Registry.
(** ** Examples *)

Example isoformat_example :
  isoformat (mk_datetime 2024 1 1 10 0 0) = "2024-01-01T10:00:00"
  /\ isoformat (mk_datetime 2024 2 29 23 59 59 + 500)%Z
     = "2024-02-29T23:59:59.000500"
  /\ isoformat (mk_datetime 2023 12 31 0 0 0) = "2023-12-31T00:00:00"
  /\ datetime_str (mk_datetime 2024 3 1 7 5 9) = "2024-03-01 07:05:09".
Proof. repeat split; vm_compute; reflexivity. Qed.

Example ObjectId_example :
  ObjectId_parse "65A1b2c3d4e5f60718293a4b" = Some (ObjectId_of_N example_oid)
  /\ ObjectId_str (ObjectId_of_N example_oid) = "65a1b2c3d4e5f60718293a4b"
  /\ ObjectId_parse "65a1b2c3d4e5f60718293a4" = None
  /\ ObjectId_parse "65a1b2c3d4e5f60718293a4g" = None
  /\ ObjectId_parse "65a1b2c3d4e5f60718293a 4" = None.
Proof. repeat split; vm_compute; reflexivity. Qed.

(** A 24-character string padded with whitespace is accepted and gives
    an identifier of eleven bytes, whose own string form is refused. *)
Example padded_ObjectId_example :
  hex_digits_24 padded_id = false
  /\ length <$> ObjectId_parse padded_id = Some 11
  /\ ObjectId_str <$> ObjectId_parse padded_id = Some "65a1b2c3d4e5f60718293a"
  /\ ObjectId_parse "65a1b2c3d4e5f60718293a" = None
  /\ ObjectId_parse "65 a1 b2 c3 d4 e5 f6 07 " = Some [101; 161; 178; 195; 212; 229; 246; 7]%N.
Proof. repeat split; vm_compute; reflexivity. Qed.

(** What the store keeps of a timestamp: the milliseconds, in UTC. *)
Example stored_timestamp_example :
  bson_value (VDatetime (mk_datetime 2024 1 1 10 0 0 + 123456)%Z)
  = VDatetime (mk_datetime 2024 1 1 10 0 0 + 123000)%Z
  /\ bson_value (VDatetimeTz (mk_datetime 2024 1 1 12 0 0) (2 * 3600 * 1000000)%Z)
     = VDatetime (mk_datetime 2024 1 1 10 0 0)
  /\ isoformat_tz (mk_datetime 2024 1 1 12 0 0) (2 * 3600 * 1000000)%Z
     = "2024-01-01T12:00:00+02:00"
  /\ isoformat_tz (mk_datetime 2024 1 1 4 30 0) (- (5 * 3600 + 30 * 60) * 1000000)%Z
     = "2024-01-01T04:30:00-05:30"
  /\ isoformat (mk_datetime 2024 1 1 10 0 0 + 123000)%Z
     = "2024-01-01T10:00:00.123000".
Proof. repeat split; vm_compute; reflexivity. Qed.

(** The documents this program builds have no [id] key for [serialize]
    to overwrite. *)
Example built_documents_have_no_id (RT : Runtime) (payload : CreateItemRequest)
    (account : SignupRequest.t) (u : doc) (uuid : string) (now1 now2 : datetime) :
  create_item_doc payload now1 now2 !! "id" = None
  /\ signup_doc account now1 now2 !! "id" = None
  /\ session_doc u uuid now1 now2 !! "id" = None.
Proof.
  split; [|split; reflexivity].
  destruct (create_item_doc payload now1 now2 !! "id") as [v|] eqn:E; [|reflexivity].
  apply create_item_doc_lookup in E. simpl in E.
  destruct E as [[E _]|[[E _]|[E _]]]; try discriminate.
  repeat destruct E as [E|E]; try discriminate; contradiction.
Qed.

(** With literal patterns and no empty-string argument, the filter is the
    predicate of the specification. *)
Example build_filter_agrees_without_empty_terms
    (q location subject : option string) (d : doc) :
  q <> Some "" -> location <> Some "" -> subject <> Some "" ->
  matches (RT := literal_runtime) (build_filter q location subject) d
  = spec_filter_matches q location subject d.
Proof.
  intros Hq Hl Hs.
  rewrite (matches_build_filter (RT := literal_runtime)).
  unfold spec_filter_matches, field_matches, spec_field_contains.
  destruct q as [[|]|], location as [[|]|], subject as [[|]|];
    try congruence; reflexivity.
Qed.

(** A second signup that reuses the student id, or the email, is refused;
    login works with either identifier and the right password only. *)
Example signup_login_example :
  let now := mk_datetime 2024 1 1 10 0 0 in
  let d := inserted (empty_database example_oid) "user"
             (signup_doc (RT := literal_runtime) alice now now) in
  let same_id := {| SignupRequest.student_id := "s1001";
                    SignupRequest.name := "Mallory";
                    SignupRequest.email := "mallory@uni.example";
                    SignupRequest.password := "x" |} in
  let same_email := {| SignupRequest.student_id := "s2002";
                       SignupRequest.name := "Mallory";
                       SignupRequest.email := "alice@uni.example";
                       SignupRequest.password := "x" |} in
  signup (RT := literal_runtime) alice now now (Some (empty_database example_oid))
  = (inr {| id := "65a1b2c3d4e5f60718293a4b"; message := "Signup successful" |},
     Some d)
  /\ signup (RT := literal_runtime) same_id now now (Some d)
     = (inl (HTTPException 400 "Account already exists"), Some d)
  /\ signup (RT := literal_runtime) same_email now now (Some d)
     = (inl (HTTPException 400 "Account already exists"), Some d)
  /\ fst (login (RT := literal_runtime)
            {| LoginRequest.identifier := "s1001";
               LoginRequest.password := "correct horse" |} "t0k3n" now now (Some d))
     = fst (login (RT := literal_runtime)
              {| LoginRequest.identifier := "alice@uni.example";
                 LoginRequest.password := "correct horse" |} "t0k3n" now now (Some d))
  /\ (exists u, fst (login (RT := literal_runtime)
                       {| LoginRequest.identifier := "s1001";
                          LoginRequest.password := "correct horse" |}
                       "t0k3n" now now (Some d))
                = inr {| token := "t0k3n"; user := Some u |})
  /\ login (RT := literal_runtime)
       {| LoginRequest.identifier := "s1001"; LoginRequest.password := "wrong" |}
       "t0k3n" now now (Some d)
     = (inl (HTTPException 401 "Invalid credentials"), Some d).
Proof.
  repeat split; try (vm_compute; reflexivity).
  eexists. vm_compute. reflexivity.
Qed.

(** An event whose start time carries an offset is stored, and answered,
    in UTC. *)
Example create_event_with_offset :
  let now := (mk_datetime 2024 4 1 9 30 0 + 999999)%Z in
  exists created : doc,
    fst (create_item (RT := literal_runtime) "events" open_day now now
           (Some (empty_database example_oid)))
    = inr (Some created)
    /\ created !! "start_time" = Some (VStr "2024-05-01T10:00:00")
    /\ created !! "created_at" = Some (VStr "2024-04-01T09:30:00.999000")
    /\ (render <$> create_item_doc open_day now now) !! "start_time"
       = Some (VStr "2024-05-01T12:00:00+02:00").
Proof.
  eexists. split; [vm_compute; reflexivity|].
  repeat split; vm_compute; reflexivity.
Qed.

(** ** Without a database *)

Section Unconfigured.

Context {RT : Runtime}.

(** Without a configured database the handlers that check for it answer
    500; the list handlers, which do not, fail on [db[...]]. *)
Lemma unconfigured_database (payload : CreateItemRequest)
    (account : SignupRequest.t) (credentials : LoginRequest.t)
    (uuid item_id : string) (now1 now2 : datetime)
    (q location subject : option string) :
  signup account now1 now2 None
  = (inl (HTTPException 500 "Database not configured"), None)
  /\ login credentials uuid now1 now2 None
     = (inl (HTTPException 500 "Database not configured"), None)
  /\ create_item "market" payload now1 now2 None
     = (inl (HTTPException 500 "Database not configured"), None)
  /\ delete_item "market" item_id None
     = (inl (HTTPException 500 "Database not configured"), None)
  /\ list_events q location None
     = (inl (TypeError "'NoneType' object is not subscriptable"), None)
  /\ list_beacons q location subject None
     = (inl (TypeError "'NoneType' object is not subscriptable"), None).
Proof. repeat split. Qed.

End Unconfigured.
(** * Further properties of the handlers *)

(** ** Create and delete together *)

Lemma find_app_some {A} (p : A -> bool) (l1 l2 : list A) (x : A) :
  List.find p l1 = Some x -> List.find p (l1 ++ l2) = Some x.
Proof.
  induction l1 as [|y l1 IH]; simpl; [discriminate|].
  destruct (p y); [intros H; exact H|exact IH].
Qed.


Section CreateDelete.

Context {RT : Runtime}.

(** The answer of [create_item] on a well-formed store. *)
Lemma create_item_result (d : database) (endpoint c : string)
    (payload : CreateItemRequest) (now1 now2 : datetime) :
  db_ok d ->
  ALLOWED_COLLECTIONS !! endpoint = Some c ->
  create_item endpoint payload now1 now2 (Some d)
  = (inr (serialize
            (Some (stored (new_oid d) (create_item_doc payload now1 now2)))),
     Some (inserted d c (create_item_doc payload now1 now2))).
Proof.
  intros Hok Hc. rewrite (create_item_run d endpoint c) by exact Hc.
  rewrite coll_inserted, insert_then_find by exact Hok. reflexivity.
Qed.


(** Two creations never share an id: the second record gets an id of its
    own, whatever the endpoints and payloads. *)
Theorem create_twice_distinct_ids (d : database) (endpoint1 endpoint2 c1 c2 : string)
    (payload1 payload2 : CreateItemRequest) (now1 now2 now3 now4 : datetime) :
  db_ok d -> (N.succ (next_oid d) < 2 ^ 96)%N ->
  ALLOWED_COLLECTIONS !! endpoint1 = Some c1 ->
  ALLOWED_COLLECTIONS !! endpoint2 = Some c2 ->
  exists r1 r2 id1 id2 d1 d2,
    create_item endpoint1 payload1 now1 now2 (Some d) = (inr (Some r1), Some d1)
    /\ create_item endpoint2 payload2 now3 now4 (Some d1) = (inr (Some r2), Some d2)
    /\ r1 !! "id" = Some (VStr id1)
    /\ r2 !! "id" = Some (VStr id2)
    /\ id1 <> id2
    /\ length (coll d2 c2) = S (length (coll d1 c2)).
Proof.
  intros Hok Hlt Hc1 Hc2.
  assert (Hok1 : db_ok (inserted d c1 (create_item_doc payload1 now1 now2)))
    by (apply db_ok_inserted; [exact Hok|exact Hlt]).
  do 6 eexists. split; [apply create_item_result; eassumption|].
  split; [apply create_item_result; eassumption|].
  split; [apply serialized_id, stored_lookup_id|].
  split; [apply serialized_id, stored_lookup_id|]. split.
  - intros E. unfold new_oid in E. apply ObjectId_str_inj in E; cbn in *; lia.
  - rewrite coll_inserted, length_app. simpl. lia.
Qed.


End CreateDelete.
(** ** Signup and login together *)

Section SignupLogin.

Context {RT : Runtime}.

Lemma signup_doc_identified (account : SignupRequest.t) (now1 now2 : datetime)
    (o : ObjectId) (identifier : string) :
  identifier = SignupRequest.student_id account
  \/ identifier = SignupRequest.email account ->
  identified_by identifier (stored o (signup_doc account now1 now2)).
Proof.
  unfold identified_by. rewrite !stored_lookup_ne by discriminate.
  intros [H|H]; subst identifier; [right|left]; reflexivity.
Qed.

Lemma stored_signup_doc (account : SignupRequest.t) (now1 now2 : datetime)
    (o : ObjectId) :
  stored o (signup_doc account now1 now2) !! "student_id"
  = Some (VStr (SignupRequest.student_id account))
  /\ stored o (signup_doc account now1 now2) !! "email"
     = Some (VStr (SignupRequest.email account))
  /\ stored o (signup_doc account now1 now2) !! "password_hash"
     = Some (VStr (hash_password (SignupRequest.password account))).
Proof. rewrite !stored_lookup_ne by discriminate. repeat split. Qed.

Lemma find_login_new_user (d : database) (account : SignupRequest.t)
    (now1 now2 : datetime) (identifier : string) :
  identifier = SignupRequest.student_id account
  \/ identifier = SignupRequest.email account ->
  (forall u, In u (coll d "user") -> ~ identified_by identifier u) ->
  List.find (matches (login_query identifier))
    (coll (inserted d "user" (signup_doc account now1 now2)) "user")
  = Some (stored (new_oid d) (signup_doc account now1 now2)).
Proof.
  intros Hid Hnone. rewrite coll_inserted, find_app_none.
  - cbn [List.find].
    replace (matches (login_query identifier) _) with true; [reflexivity|].
    symmetry. apply matches_login_query, signup_doc_identified, Hid.
  - apply find_none_iff. intros u Hu.
    destruct (matches (login_query identifier) u) eqn:E; [|reflexivity].
    apply matches_login_query in E. destruct (Hnone u Hu E).
Qed.

(** X4: after a successful signup, login with the new student id or email and
    the same password succeeds and answers with the new user, provided no
    earlier user has that identifier as its email or student id; a
    password with another hash is refused. *)
Theorem signup_then_login (d : database) (account : SignupRequest.t)
    (identifier uuid : string) (now1 now2 now3 now4 : datetime) :
  ~ account_taken d (SignupRequest.student_id account)
      (SignupRequest.email account) ->
  identifier = SignupRequest.student_id account
  \/ identifier = SignupRequest.email account ->
  (forall u, In u (coll d "user") -> ~ identified_by identifier u) ->
  exists d1 u,
    snd (signup account now1 now2 (Some d)) = Some d1
    /\ fst (login {| LoginRequest.identifier := identifier;
                     LoginRequest.password := SignupRequest.password account |}
              uuid now3 now4 (Some d1))
       = inr {| token := uuid; user := Some u |}
    /\ u !! "id" = Some (VStr (ObjectId_str (new_oid d)))
    /\ u !! "student_id" = Some (VStr (SignupRequest.student_id account))
    /\ u !! "email" = Some (VStr (SignupRequest.email account))
    /\ (forall wrong,
          hash_password wrong <> hash_password (SignupRequest.password account) ->
          login {| LoginRequest.identifier := identifier;
                   LoginRequest.password := wrong |} uuid now3 now4 (Some d1)
          = (inl (HTTPException 401 "Invalid credentials"), Some d1)).
Proof.
  intros Hfree Hid Hnone.
  assert (Hsign : List.find (matches (signup_query (SignupRequest.student_id account)
                                        (SignupRequest.email account)))
                    (coll d "user") = None).
  { apply find_none_iff. intros u Hu.
    destruct (matches _ u) eqn:E; [|reflexivity].
    apply matches_signup_query in E. destruct Hfree. exists u. auto. }
  exists (inserted d "user" (signup_doc account now1 now2)).
  exists (render <$> rename_id (stored (new_oid d)
                                  (signup_doc account now1 now2))).
  destruct (stored_signup_doc account now1 now2 (new_oid d)) as (Hs1 & Hs2 & Hs3).
  split; [rewrite signup_run, Hsign; reflexivity|].
  split; [|split; [|split; [|split]]].
  - rewrite login_run. cbn [LoginRequest.identifier LoginRequest.password].
    rewrite (find_login_new_user d account now1 now2 identifier Hid Hnone).
    replace (value_eqb _ _) with true; [reflexivity|].
    symmetry. apply get_is_str. exact Hs3.
  - apply serialized_id, stored_lookup_id.
  - rewrite lookup_fmap, rename_id_other, Hs1 by discriminate. reflexivity.
  - rewrite lookup_fmap, rename_id_other, Hs2 by discriminate. reflexivity.
  - intros wrong Hwrong. rewrite login_run.
    cbn [LoginRequest.identifier LoginRequest.password].
    rewrite (find_login_new_user d account now1 now2 identifier Hid Hnone).
    destruct (value_eqb _ _) eqn:E; [|reflexivity].
    apply get_is_str in E. rewrite Hs3 in E. congruence.
Qed.

(** X5: signup compares student id with student id and email with email, but
    login tries the identifier on both fields of every user.  So when an
    earlier user has, as its student id, the email of a later account,
    that later account cannot log in with its email: login checks the
    password against the earlier user. *)
Theorem login_shadowed_by_earlier_user (d : database) (account : SignupRequest.t)
    (earlier : doc) (uuid : string) (now1 now2 now3 now4 : datetime) :
  ~ account_taken d (SignupRequest.student_id account)
      (SignupRequest.email account) ->
  List.find (matches (login_query (SignupRequest.email account))) (coll d "user")
  = Some earlier ->
  earlier !! "password_hash"
  <> Some (VStr (hash_password (SignupRequest.password account))) ->
  exists d1,
    signup account now1 now2 (Some d)
    = (inr {| id := ObjectId_str (new_oid d); message := "Signup successful" |},
       Some d1)
    /\ earlier !! "student_id" = Some (VStr (SignupRequest.email account))
    /\ login {| LoginRequest.identifier := SignupRequest.email account;
                LoginRequest.password := SignupRequest.password account |}
         uuid now3 now4 (Some d1)
       = (inl (HTTPException 401 "Invalid credentials"), Some d1).
Proof.
  intros Hfree Hfind Hpw.
  assert (Hsign : List.find (matches (signup_query (SignupRequest.student_id account)
                                        (SignupRequest.email account)))
                    (coll d "user") = None).
  { apply find_none_iff. intros u Hu.
    destruct (matches _ u) eqn:E; [|reflexivity].
    apply matches_signup_query in E. destruct Hfree. exists u. auto. }
  exists (inserted d "user" (signup_doc account now1 now2)).
  split; [rewrite signup_run, Hsign; reflexivity|]. split.
  - apply List.find_some in Hfind as [Hin Hm]. apply matches_login_query in Hm.
    destruct Hm as [Hm|Hm]; [|exact Hm].
    destruct Hfree. exists earlier. split; [exact Hin|right; exact Hm].
  - rewrite login_run. cbn [LoginRequest.identifier LoginRequest.password].
    rewrite coll_inserted.
    assert (Hfind' : List.find (matches (login_query (SignupRequest.email account)))
                       (coll d "user"
                        ++ [stored (new_oid d) (signup_doc account now1 now2)])
                     = Some earlier).
    { apply find_app_some, Hfind. }
    rewrite Hfind'.
    destruct (value_eqb _ _) eqn:E; [|reflexivity].
    apply get_is_str in E. contradiction.
Qed.



Lemma accounts_kept_refl (d : database) : accounts_kept d d.
Proof. split; exists []; rewrite app_nil_r; reflexivity. Qed.

(** X7: no handler removes or changes a user or a session: after any of
    them ([signup], [login], [create_item], [delete_item], [list_items]
    and the explicit list handlers), the users and the sessions of before
    are still there, in the same order, possibly followed by new ones. *)
Theorem users_and_sessions_only_grow (d d' : database) :
  (forall account now1 now2,
     snd (signup account now1 now2 (Some d)) = Some d' -> accounts_kept d d')
  /\ (forall credentials uuid now1 now2,
        snd (login credentials uuid now1 now2 (Some d)) = Some d' ->
        accounts_kept d d')
  /\ (forall endpoint payload now1 now2,
        snd (create_item endpoint payload now1 now2 (Some d)) = Some d' ->
        accounts_kept d d')
  /\ (forall endpoint item_id,
        snd (delete_item endpoint item_id (Some d)) = Some d' ->
        accounts_kept d d')
  /\ (forall q location subject,
        (snd (list_items q location subject (Some d)) = Some d' ->
         accounts_kept d d')
        /\ forall c h, In (c, h) (explicit_list_calls q location subject) ->
             snd (h (Some d)) = Some d' -> accounts_kept d d').
Proof.
  assert (Hother : forall c l, registered c ->
            accounts_kept d (replaced d c l)).
  { intros c l Hc. split; exists []; rewrite app_nil_r; unfold coll, replaced; cbn;
      rewrite lookup_insert_ne; try reflexivity; intros ->;
      unfold registered in Hc; simpl in Hc;
      repeat destruct Hc as [Hc|Hc]; try discriminate; contradiction. }
  split; [|split; [|split; [|split]]].
  - intros account now1 now2. rewrite signup_run.
    destruct (List.find _ (coll d "user")); intros [= <-];
      [apply accounts_kept_refl|].
    split; [eexists; apply coll_inserted|].
    exists []. rewrite app_nil_r. apply coll_inserted_ne. discriminate.
  - intros credentials uuid now1 now2. rewrite login_run.
    destruct (List.find _ (coll d "user")); [|intros [= <-]; apply accounts_kept_refl].
    destruct (value_eqb _ _); intros [= <-]; [|apply accounts_kept_refl].
    split; [|eexists; apply coll_inserted].
    exists []. rewrite app_nil_r. apply coll_inserted_ne. discriminate.
  - intros endpoint payload now1 now2.
    destruct (ALLOWED_COLLECTIONS !! endpoint) as [c|] eqn:E.
    + rewrite (create_item_run d endpoint c) by exact E. intros [= <-].
      apply allowed_registered in E.
      split; exists []; rewrite app_nil_r; apply coll_inserted_ne; intros ->;
        unfold registered in E; simpl in E;
        repeat destruct E as [E|E]; try discriminate; contradiction.
    + unfold create_item. rewrite E. intros [= <-]. apply accounts_kept_refl.
  - intros endpoint item_id.
    destruct (ALLOWED_COLLECTIONS !! endpoint) as [c|] eqn:E.
    + rewrite (delete_item_run d endpoint c) by exact E.
      destruct (ObjectId_parse item_id); [|intros [= <-]; apply accounts_kept_refl].
      destruct (remove_first _ (coll d c)); intros [= <-];
        [|apply accounts_kept_refl].
      apply Hother, (allowed_registered _ _ E).
    + unfold delete_item. rewrite E. intros [= <-]. apply accounts_kept_refl.
  - intros q location subject. split.
    + intros [= <-]. apply accounts_kept_refl.
    + intros c h Hh.
      apply explicit_list_cases in Hh as (f & key & dir & _ & Hrun).
      rewrite Hrun. destruct (query_valid f); intros [= <-];
        apply accounts_kept_refl.
Qed.

End SignupLogin.
(** ** The route table *)





Lemma find_app_cases {A} (p : A -> bool) (l1 l2 : list A) (x : A) :
  List.find p (l1 ++ l2) = Some x ->
  List.find p l1 = Some x \/ (List.find p l1 = None /\ List.find p l2 = Some x).
Proof.
  induction l1 as [|y l1 IH]; simpl; [auto|].
  destruct (p y); [auto|exact IH].
Qed.

(** A request is handled by the first route that matches it. *)
Lemma resolve_calls (method : string) (path : list string) (h : handler)
    (params : list (string * string)) :
  resolve method path = Calls h params ->
  exists r, List.find (route_matches method path) routes = Some r
            /\ h = route_handler r
            /\ params = path_params (route_path r) path.
Proof.
  unfold resolve. destruct (List.find _ routes) as [r|].
  - intros [= <- <-]. eauto.
  - destruct (some_path_matches path); [discriminate|].
    destruct (redirect_path path) as [p|]; [|discriminate].
    destruct (some_path_matches p); discriminate.
Qed.






(** X8: with the first matching route handling a request, [GET] on each of
    the seven endpoints is answered by [list_items], registered on those
    paths before the explicit handlers: no request ever reaches an
    explicit list handler, and the answer is the fixed dictionary
    [{"detail": "Improper call"}], whatever the query and the store. *)
Theorem list_routes_shadowed :
  (forall endpoint, In endpoint endpoint_names ->
     resolve "GET" [endpoint] = Calls H_list_items [])
  /\ (forall method path h params,
        resolve method path = Calls h params ->
        ~ In h explicit_list_handlers)
  /\ (forall q location subject (w : option database),
        list_items q location subject w
        = (inr {[ "detail" := VStr "Improper call" ]}, w)).
Proof.
  split; [|split].
  - intros endpoint Hin. unfold endpoint_names in Hin. simpl in Hin.
    repeat destruct Hin as [<-|Hin]; try contradiction; vm_compute; reflexivity.
  - intros method path h params H.
    apply resolve_calls in H as (r & Hfind & -> & _).
    rewrite <- (firstn_skipn 15 routes) in Hfind.
    apply find_app_cases in Hfind as [Hfind|[Hnone Hfind]];
      apply List.find_some in Hfind as [Hin Hm].
    + unfold routes in Hin. simpl in Hin.
      repeat destruct Hin as [<-|Hin]; try contradiction;
        simpl; intros Hh; repeat destruct Hh as [Hh|Hh];
        try discriminate Hh; contradiction.
    + unfold routes in Hin. simpl in Hin.
      repeat destruct Hin as [<-|Hin]; try contradiction;
        try (simpl; intros Hh; repeat destruct Hh as [Hh|Hh];
             try discriminate Hh; contradiction);
        intros _;
        match type of Hm with
        | route_matches _ _ (api_route "GET" ?p _) = true =>
            assert (Hf : route_matches method path (api_route "GET" p H_list_items)
                         = false)
              by (apply (List.find_none _ _ Hnone); unfold routes; simpl; tauto)
        end;
        unfold route_matches in Hf, Hm;
        cbn [api_route route_path route_methods] in Hf, Hm; congruence.
  - reflexivity.
Qed.

(** ** Order of the listings *)

Section ListOrder.

Context {RT : Runtime}.

(** C2: a [GET] on any of the seven endpoints, [/events] included, is
    handled by [list_items], which returns the fixed dictionary
    [{"detail": "Improper call"}] and no records, whatever the query and
    the store.  The explicit handlers, registered later on the same
    paths, are the ones that sort: when the store accepts the filter
    arguments as patterns, [list_events] returns the matching events in
    non-decreasing [start_time] and each of the six others the matching
    records of its collection in non-increasing [created_at]; when it
    refuses one, they raise and leave the store alone.  On timestamps
    the order is the chronological one, and a record without the key
    sorts before every timestamp. *)
Theorem list_order_not_served :
  (forall endpoint q location subject (w : option database),
     In endpoint endpoint_names ->
     resolve "GET" [endpoint] = Calls H_list_items []
     /\ list_items q location subject w
        = (inr {[ "detail" := VStr "Improper call" ]}, w))
  /\ (forall (d : database) (q location subject : option string),
        term_valid q = true -> term_valid location = true ->
        (lists (list_events q location) d "event"
           (build_filter q location None) (ascending_by "start_time")
         /\ lists (list_clubs q location) d "club"
              (build_filter q location None) (descending_by "created_at")
         /\ lists (list_market q location) d "market"
              (build_filter q location None) (descending_by "created_at"))
        /\ (term_valid subject = true ->
            lists (list_beacons q location subject) d "beacon"
              (build_filter q location subject) (descending_by "created_at")
            /\ lists (list_resources q location subject) d "resource"
                 (build_filter q location subject) (descending_by "created_at")
            /\ lists (list_tutors q location subject) d "tutor"
                 (build_filter q location subject) (descending_by "created_at")
            /\ lists (list_lostfound q location subject) d "lostfound"
                 (build_filter q location subject) (descending_by "created_at")))
  /\ (forall (d : database) (q location subject : option string) c h,
        In (c, h) (explicit_list_calls q location subject) ->
        term_valid q && term_valid location = false ->
        h (Some d) = (inl OperationFailure, Some d))
  /\ (forall (ascending : bool) (t1 t2 : datetime),
        key_le ascending (Some (VDatetime t1)) (Some (VDatetime t2))
        <-> (t1 <= t2)%Z)
  /\ (forall (ascending : bool) (t : datetime),
        key_le ascending None (Some (VDatetime t))).
Proof.
  split; [|split; [|split; [|split]]].
  - intros endpoint q location subject w Hin. split; [|reflexivity].
    unfold endpoint_names in Hin. simpl in Hin.
    repeat destruct Hin as [<-|Hin]; try contradiction; vm_compute; reflexivity.
  - intros d q location subject Hq Hl.
    assert (Hnone : query_valid (build_filter q location None) = true).
    { rewrite query_valid_build_filter, Hq, Hl. reflexivity. }
    pose proof (fun c key => proj1 (find_sort_lists c _ key d Hnone)) as Hasc.
    pose proof (fun c key => proj2 (find_sort_lists c _ key d Hnone)) as Hdesc.
    split; [split; [apply Hasc|split; apply Hdesc]|].
    intros Hs.
    assert (Hall : query_valid (build_filter q location subject) = true).
    { rewrite query_valid_build_filter, Hq, Hl, Hs. reflexivity. }
    pose proof (fun c key => proj2 (find_sort_lists c _ key d Hall)) as Hdesc'.
    repeat split; apply Hdesc'.
  - intros d q location subject c h Hin Hbad.
    assert (Hnone : query_valid (build_filter q location None) = false).
    { rewrite query_valid_build_filter, Hbad. reflexivity. }
    assert (Hall : query_valid (build_filter q location subject) = false).
    { rewrite query_valid_build_filter, Hbad. reflexivity. }
    simpl in Hin.
    repeat destruct Hin as [Hin|Hin]; try contradiction; inversion Hin; subst;
      apply find_sort_refused; assumption.
  - apply key_le_datetime.
  - apply key_le_missing_first.
Qed.

End ListOrder.

(** ** Identifiers *)

Lemma hex_value_lower (c : ascii) : hex_value (lower_char c) = hex_value c.
Proof. destruct c as [[] [] [] [] [] [] [] []]; reflexivity. Qed.

Lemma is_space_lower (c : ascii) : is_space (lower_char c) = is_space c.
Proof. destruct c as [[] [] [] [] [] [] [] []]; reflexivity. Qed.

Lemma fromhex_lower (s : string) : fromhex (lower s) = fromhex s.
Proof.
  remember (String.length s) as n eqn:Hn.
  assert (Hle : String.length s <= n) by lia. clear Hn.
  revert s Hle. induction n as [|n IH]; intros s Hle.
  - destruct s; [reflexivity|simpl in Hle; lia].
  - destruct s as [|c s]; [reflexivity|]. simpl in Hle.
    cbn [lower fromhex]. rewrite is_space_lower, hex_value_lower.
    destruct (is_space c); [apply IH; lia|].
    destruct (hex_value c); [|reflexivity].
    destruct s as [|c' s]; [reflexivity|]. cbn [lower].
    rewrite hex_value_lower. destruct (hex_value c'); [|reflexivity].
    rewrite IH by (simpl in Hle; lia). reflexivity.
Qed.

Lemma lower_length (s : string) : String.length (lower s) = String.length s.
Proof. induction s as [|c s IH]; simpl; [reflexivity|]. rewrite IH. reflexivity. Qed.

Lemma ObjectId_parse_lower (s : string) :
  ObjectId_parse (lower s) = ObjectId_parse s.
Proof. unfold ObjectId_parse. rewrite lower_length, fromhex_lower. reflexivity. Qed.

(** X10: [oid] does not tell upper case from lower case, and neither does
    [delete_item].  What [oid] accepts has 24 characters and denotes at
    most twelve bytes, exactly twelve when the characters are 24
    hexadecimal digits; a twelve-byte identifier is read back by [oid]
    from its own string form, a shorter one (from a string padded with
    whitespace) has a string form that [oid] refuses.  What [oid]
    refuses is answered 400. *)
Theorem oid_ignores_case :
  (forall s1 s2, lower s1 = lower s2 -> oid s1 = oid s2)
  /\ (forall {RT : Runtime} s1 s2 endpoint (w : option database),
        lower s1 = lower s2 ->
        delete_item endpoint s1 w = delete_item endpoint s2 w)
  /\ (forall s o, oid s = inr o ->
        String.length s = 24
        /\ length o <= 12
        /\ (length o = 12 <-> hex_digits_24 s = true)
        /\ (length o = 12 -> oid (ObjectId_str o) = inr o)
        /\ (length o <> 12 ->
            oid (ObjectId_str o) = inl (HTTPException 400 "Invalid id format")))
  /\ (forall s, hex_digits_24 s = true -> exists o, oid s = inr o)
  /\ (exists o, oid padded_id = inr o /\ length o = 11)
  /\ (forall s e, oid s = inl e -> e = HTTPException 400 "Invalid id format")
  /\ (forall s, String.length s <> 24 ->
        oid s = inl (HTTPException 400 "Invalid id format")).
Proof.
  assert (Hoid : forall s1 s2, lower s1 = lower s2 -> oid s1 = oid s2).
  { intros s1 s2 E. unfold oid.
    rewrite <- (ObjectId_parse_lower s1), <- (ObjectId_parse_lower s2), E.
    reflexivity. }
  split; [exact Hoid|]. split; [|split; [|split; [|split; [|split]]]].
  - intros RT s1 s2 endpoint w E. unfold delete_item. rewrite (Hoid s1 s2 E).
    reflexivity.
  - intros s o. unfold oid. destruct (ObjectId_parse s) as [o'|] eqn:E; [|discriminate].
    intros [= <-]. destruct (ObjectId_parse_bytes _ _ E) as (Hle & Hsmall & H12).
    split.
    { apply ObjectId_parse_accepts in E. tauto. }
    split; [exact Hle|]. split; [exact H12|]. split.
    + intros Hlen. unfold ObjectId_parse, ObjectId_str.
      rewrite hexlify_length, Hlen. cbn [Nat.mul Nat.add Nat.eqb].
      rewrite fromhex_hexlify by exact Hsmall. reflexivity.
    + intros Hlen. unfold ObjectId_parse, ObjectId_str.
      rewrite hexlify_length.
      destruct (Nat.eqb_spec (2 * length o') 24); [lia|reflexivity].
  - intros s Hs. destruct (ObjectId_parse_digits s Hs) as (o & Ho & _).
    exists o. unfold oid. rewrite Ho. reflexivity.
  - eexists. split; vm_compute; reflexivity.
  - intros s e. unfold oid. destruct (ObjectId_parse s); [discriminate|].
    intros [= <-]. reflexivity.
  - intros s Hlen. unfold oid, ObjectId_parse.
    destruct (Nat.eqb_spec (String.length s) 24); [contradiction|reflexivity].
Qed.
(** ** Without a database, continued *)

Section NoDatabase.

Context {RT : Runtime}.


(** X13: without a configured database, signup, login, and creation and
    deletion on any valid endpoint answer 500, deletion even for an id
    that is no ObjectId; the explicit list handlers make no such check
    and fail with [TypeError] on [db[...]]. *)
Theorem unconfigured_database_answers :
  (forall account now1 now2,
     signup account now1 now2 None
     = (inl (HTTPException 500 "Database not configured"), None))
  /\ (forall credentials uuid now1 now2,
        login credentials uuid now1 now2 None
        = (inl (HTTPException 500 "Database not configured"), None))
  /\ (forall endpoint payload now1 now2 item_id,
        In endpoint endpoint_names ->
        create_item endpoint payload now1 now2 None
        = (inl (HTTPException 500 "Database not configured"), None)
        /\ delete_item endpoint item_id None
           = (inl (HTTPException 500 "Database not configured"), None))
  /\ (forall q location subject c h,
        In (c, h) (explicit_list_calls q location subject) ->
        h None = (inl (TypeError "'NoneType' object is not subscriptable"), None)).
Proof.
  split; [reflexivity|]. split; [reflexivity|]. split.
  - intros endpoint payload now1 now2 item_id Hin.
    unfold endpoint_names in Hin. simpl in Hin.
    repeat destruct Hin as [<-|Hin]; try contradiction; split; reflexivity.
  - intros q location subject c h Hin. simpl in Hin.
    repeat destruct Hin as [Hin|Hin]; try contradiction; inversion Hin;
      reflexivity.
Qed.

End NoDatabase.

(** ** The properties on the example data *)


Lemma example_oid_succ_small :
  (N.succ (next_oid (empty_database example_oid)) < 2 ^ 96)%N.
Proof. vm_compute. reflexivity. Qed.

Lemma db_ok_example : db_ok (empty_database example_oid).
Proof. apply db_ok_empty. vm_compute. reflexivity. Qed.



(** On the desk lamp, the stored keys are [title], [price], the two stamps
    and, added by the store, [_id]. *)
Lemma create_item_keys_desk_lamp :
  let now := mk_datetime 2024 1 1 10 0 0 in
  let document := create_item_doc desk_lamp now now in
  (forall k, is_Some (document !! k) ->
     In k (request_model_keys ++ ["created_at"; "updated_at"]))
  /\ document
     = list_to_map [ ("title", VStr "Desk lamp"); ("price", VFloat 10%float);
                     ("created_at", VDatetime now); ("updated_at", VDatetime now) ].
Proof.
  intros now document. split.
  - exact (proj1 (create_item_keys (RT := literal_runtime)
                    (empty_database example_oid) "market" "market" desk_lamp
                    now now eq_refl)).
  - vm_compute. reflexivity.
Defined.




Lemma create_twice_desk_lamps :
  let now := mk_datetime 2024 1 1 10 0 0 in
  exists r1 r2 id1 id2 d1 d2,
    create_item (RT := literal_runtime) "market" desk_lamp now now
      (Some (empty_database example_oid))
    = (inr (Some r1), Some d1)
    /\ create_item (RT := literal_runtime) "lostfound" desk_lamp now now (Some d1)
       = (inr (Some r2), Some d2)
    /\ r1 !! "id" = Some (VStr id1)
    /\ r2 !! "id" = Some (VStr id2)
    /\ id1 <> id2
    /\ length (coll d2 "lostfound") = S (length (coll d1 "lostfound")).
Proof.
  exact (create_twice_distinct_ids (RT := literal_runtime)
           (empty_database example_oid) "market" "lostfound" "market" "lostfound"
           desk_lamp desk_lamp _ _ _ _
           db_ok_example example_oid_succ_small eq_refl eq_refl).
Defined.


Lemma signup_then_login_alice :
  let now := mk_datetime 2024 1 1 10 0 0 in
  exists d1 u,
    snd (signup (RT := literal_runtime) alice now now
           (Some (empty_database example_oid))) = Some d1
    /\ fst (login (RT := literal_runtime)
              {| LoginRequest.identifier := "alice@uni.example";
                 LoginRequest.password := "correct horse" |}
              "t0k3n" now now (Some d1))
       = inr {| token := "t0k3n"; user := Some u |}
    /\ u !! "id" = Some (VStr "65a1b2c3d4e5f60718293a4b")
    /\ u !! "student_id" = Some (VStr "s1001")
    /\ u !! "email" = Some (VStr "alice@uni.example")
    /\ (forall wrong,
          hash_password (RT := literal_runtime) wrong
          <> hash_password (RT := literal_runtime) "correct horse" ->
          login (RT := literal_runtime)
            {| LoginRequest.identifier := "alice@uni.example";
               LoginRequest.password := wrong |} "t0k3n" now now (Some d1)
          = (inl (HTTPException 401 "Invalid credentials"), Some d1)).
Proof.
  apply (signup_then_login (RT := literal_runtime) (empty_database example_oid)
           alice "alice@uni.example" "t0k3n").
  - intros (u & Hin & _). destruct Hin.
  - right. reflexivity.
  - intros u Hin. destruct Hin.
Defined.

Lemma login_shadowed_carol :
  let now := mk_datetime 2024 1 1 10 0 0 in
  let d := inserted (empty_database example_oid) "user"
             (signup_doc (RT := literal_runtime) bob_at now now) in
  exists d1,
    signup (RT := literal_runtime) carol now now (Some d)
    = (inr {| id := ObjectId_str (new_oid d); message := "Signup successful" |},
       Some d1)
    /\ stored (ObjectId_of_N example_oid)
         (signup_doc (RT := literal_runtime) bob_at now now) !! "student_id"
       = Some (VStr "carol@uni.example")
    /\ login (RT := literal_runtime)
         {| LoginRequest.identifier := "carol@uni.example";
            LoginRequest.password := "carol's password" |}
         "t0k3n" now now (Some d1)
       = (inl (HTTPException 401 "Invalid credentials"), Some d1).
Proof.
  intros now d.
  apply (login_shadowed_by_earlier_user (RT := literal_runtime) d carol
           (stored (ObjectId_of_N example_oid)
              (signup_doc (RT := literal_runtime) bob_at now now))
           "t0k3n" now now now now).
  - intros (u & Hin & Hs). unfold d in Hin. rewrite coll_inserted in Hin.
    destruct Hin as [<-|[]]. destruct Hs as [Hs|Hs]; vm_compute in Hs; discriminate Hs.
  - vm_compute. reflexivity.
  - vm_compute. discriminate.
Defined.


